(** * Message conversion between Letta events and AI SDK UI messages

    A shallow embedding of the two converters of the provider,
    [convertToAiSdkMessage] (Letta messages to UI messages) and
    [convertToLettaMessage] (SDK prompt to Letta message-creation payload),
    together with the content transforms they share, and the properties of
    the converter specification stated and settled against them. *)

From Stdlib Require Import List String Ascii ZArith NArith Bool Lia.
From Stdlib Require Import DecimalString DecimalN DecimalPos Permutation Sorted.
Import ListNotations.

Local Open Scope string_scope.
Local Open Scope list_scope.

(* ===================================================================== *)
(** ** Errors and the result of a call that may throw *)
(* ===================================================================== *)

(** The three [throw] sites for roles in [convertToLettaMessage]. *)
Inductive RoleError : Type :=
| AssistantRoleNotSupported   (* "Assistant role is not supported for user input" *)
| ToolRoleNotSupported        (* "Tool role is not supported" *)
| MessageRoleNotSupported.    (* "Message role is not supported" *)

(** An integer that a number of the language holds exactly and prints digit
    for digit ([Number.isSafeInteger]): its magnitude is at most [2^53 - 1]. *)
Record SafeInteger : Type := {
  int_value : Z;
  int_safe : Z.leb (Z.abs int_value) 9007199254740991 = true
}.

(** A value of an untyped ([any]) position.  Numbers are the safe integers;
    fractions, larger magnitudes, NaN and the infinities are outside the
    model.  The property list of an object is in the order in which the engine
    enumerates its own properties, with pairwise distinct names. *)
#[warnings="-register-all"]
Inductive JsValue : Type :=
| JUndefined
| JNull
| JBool (b : bool)
| JNum (n : SafeInteger)
| JStr (s : string)
| JArr (items : list JsValue)
| JObj (props : list (string * JsValue)).

Definition JsObject : Type := list (string * JsValue).

(** What a call can throw: [Error("Content type ... not supported")] with the
    offending tag, one of the role errors, or the engine's own [TypeError]. *)
Inductive Error : Type :=
| ContentTypeNotSupported (tag : JsValue)
| RoleNotSupported (e : RoleError)
| TypeError.

Inductive Result (A : Type) : Type :=
| Ok (a : A)
| Err (e : Error).
Arguments Ok {A} a.
Arguments Err {A} e.

Definition bind {A B : Type} (r : Result A) (k : A -> Result B) : Result B :=
  match r with
  | Ok a => k a
  | Err e => Err e
  end.

Notation "x <- c ;; k" := (bind c (fun x => k))
  (at level 61, c at next level, right associativity).

(** [parts.flatMap(f)] and [prompt.map(f)] with a callback that may throw:
    elements are visited left to right and the first throw ends the call. *)
Fixpoint flatMapM {A B : Type} (f : A -> Result (list B)) (l : list A)
  : Result (list B) :=
  match l with
  | [] => Ok []
  | x :: r => ys <- f x ;; zs <- flatMapM f r ;; Ok (ys ++ zs)
  end.

Fixpoint mapM {A B : Type} (f : A -> Result B) (l : list A) : Result (list B) :=
  match l with
  | [] => Ok []
  | x :: r => y <- f x ;; ys <- mapM f r ;; Ok (y :: ys)
  end.

(* ===================================================================== *)
(** ** The operators of the language the converters use *)
(* ===================================================================== *)

Module Js.

(** [o.k] on an object, for a name that [Object.prototype] does not define
    (the converters read [type], [text], [imageUrl], [inputAudio], [url]). *)
Fixpoint get (o : JsObject) (k : string) : JsValue :=
  match o with
  | [] => JUndefined
  | (k', v) :: r => if String.eqb k' k then v else get r k
  end.

(** [v?.url]: undefined on [null] and [undefined]; an own property of an
    object; undefined on primitives and arrays, which have no [url]. *)
Definition optUrl (v : JsValue) : JsValue :=
  match v with
  | JObj o => get o "url"
  | _ => JUndefined
  end.

(** [a ?? b] *)
Definition nullish (a b : JsValue) : JsValue :=
  match a with
  | JUndefined | JNull => b
  | _ => a
  end.

(** [!!v] *)
Definition truthy (v : JsValue) : bool :=
  match v with
  | JUndefined | JNull => false
  | JBool b => b
  | JNum n => negb (Z.eqb (int_value n) 0)
  | JStr s => negb (String.eqb s "")
  | JArr _ | JObj _ => true
  end.

(** [a || b] *)
Definition or (a b : JsValue) : JsValue := if truthy a then a else b.

(** [s || ""] for an optional string: absent and empty both give [""]. *)
Definition orEmpty (s : option string) : string :=
  match s with
  | Some t => t
  | None => ""
  end.

(** [typeof v === "string"], with the string when it is one. *)
Definition asString (v : JsValue) : option string :=
  match v with
  | JStr s => Some s
  | _ => None
  end.

(** [v === "s"] against a string literal. *)
Definition strictEqStr (v : JsValue) (s : string) : bool :=
  match v with
  | JStr t => String.eqb t s
  | _ => false
  end.

(** *** [JSON.stringify] *)

Definition dquote : string := String "034"%char EmptyString.
Definition backslash : string := String "092"%char EmptyString.

Definition hexDigit (n : nat) : ascii :=
  match n with
  | 0 => "0" | 1 => "1" | 2 => "2" | 3 => "3" | 4 => "4" | 5 => "5"
  | 6 => "6" | 7 => "7" | 8 => "8" | 9 => "9" | 10 => "a" | 11 => "b"
  | 12 => "c" | 13 => "d" | 14 => "e" | _ => "f"
  end%char.

(** One code unit of a quoted JSON string (QuoteJSONString). *)
Definition escapeChar (c : ascii) : string :=
  let n := nat_of_ascii c in
  (if Nat.eqb n 34 then backslash ++ dquote
   else if Nat.eqb n 92 then backslash ++ backslash
   else if Nat.eqb n 8 then backslash ++ "b"
   else if Nat.eqb n 12 then backslash ++ "f"
   else if Nat.eqb n 10 then backslash ++ "n"
   else if Nat.eqb n 13 then backslash ++ "r"
   else if Nat.eqb n 9 then backslash ++ "t"
   else if Nat.ltb n 32 then
     backslash ++ "u00"
     ++ String (hexDigit (n / 16)) (String (hexDigit (n mod 16)) "")
   else String c "")%string.

Fixpoint escape (s : string) : string :=
  match s with
  | EmptyString => ""
  | String c r => (escapeChar c ++ escape r)%string
  end.

Definition quote (s : string) : string :=
  (dquote ++ escape s ++ dquote)%string.

Definition numberToString (n : SafeInteger) : string :=
  NilZero.string_of_int (Z.to_int (int_value n)).

Fixpoint join (sep : string) (l : list string) : string :=
  match l with
  | [] => ""
  | [x] => x
  | x :: r => (x ++ sep ++ join sep r)%string
  end.

(** [JSON.stringify(v)]; [None] is the [undefined] it returns for
    [undefined].  Inside an array [undefined] is written [null], inside an
    object a property holding [undefined] is left out. *)
Fixpoint stringify (v : JsValue) : option string :=
  match v with
  | JUndefined => None
  | JNull => Some "null"
  | JBool true => Some "true"
  | JBool false => Some "false"
  | JNum n => Some (numberToString n)
  | JStr s => Some (quote s)
  | JArr items =>
      Some ("[" ++ join ","
              (map (fun x => match stringify x with
                             | Some t => t
                             | None => "null"
                             end) items) ++ "]")%string
  | JObj props =>
      Some ("{" ++ join ","
              (flat_map (fun kv => match stringify (snd kv) with
                                   | Some t => [(quote (fst kv) ++ ":" ++ t)%string]
                                   | None => []
                                   end) props) ++ "}")%string
  end.

End Js.

(* ===================================================================== *)
(** ** Letta messages (the input of the inbound converter) *)
(* ===================================================================== *)

(** [LettaMessageUnion["messageType"]], the six kinds the converter handles. *)
Inductive MessageType : Type :=
| user_message
| assistant_message
| system_message
| tool_call_message
| tool_return_message
| reasoning_message.

Definition MessageType_eqb (a b : MessageType) : bool :=
  match a, b with
  | user_message, user_message
  | assistant_message, assistant_message
  | system_message, system_message
  | tool_call_message, tool_call_message
  | tool_return_message, tool_return_message
  | reasoning_message, reasoning_message => true
  | _, _ => false
  end.

(** The string of a message type, as it is copied into the metadata. *)
Definition messageTypeName (t : MessageType) : string :=
  match t with
  | user_message => "user_message"
  | assistant_message => "assistant_message"
  | system_message => "system_message"
  | tool_call_message => "tool_call_message"
  | tool_return_message => "tool_return_message"
  | reasoning_message => "reasoning_message"
  end.

(** A valid [Date]; the converter only calls [toISOString()] on it. *)
Record Date : Type := { toISOString : string }.

(** [content: string | any[]]; the elements of the array are objects. *)
Inductive MessageContent : Type :=
| ContentString (s : string)
| ContentArray (fragments : list JsObject).

(** The optional fields shared by reasoning and tool-return messages. *)
Record Provenance : Type := {
  name : option string;
  otid : option string;
  senderId : option string;
  stepId : option string;
  isErr : option bool;
  seqId : option SafeInteger;
  runId : option string
}.

Record ToolCall : Type := {
  tc_name : option string;
  tc_toolCallId : option string;
  tc_arguments : JsValue
}.

Inductive ToolReturnStatus : Type := StatusSuccess | StatusError.

Record ToolReturn : Type := {
  tr_toolCallId : string;
  tr_toolReturn : JsValue;
  tr_status : ToolReturnStatus;
  tr_stdout : option (list string);
  tr_stderr : option (list string);
  tr_provenance : Provenance
}.

Record Reasoning : Type := {
  rs_reasoning : string;
  rs_source : option string;
  rs_provenance : Provenance
}.

Inductive LettaMessage : Type :=
| SystemMessage (id : string) (date : Date) (content : string)
| UserMessage (id : string) (date : Date) (content : MessageContent)
| AssistantMessage (id : string) (date : Date) (content : MessageContent)
| ReasoningMessage (id : string) (date : Date) (r : Reasoning)
| ToolCallMessage (id : string) (date : Date) (toolCall : option ToolCall)
| ToolReturnMessage (id : string) (date : Date) (t : ToolReturn).

Definition messageId (m : LettaMessage) : string :=
  match m with
  | SystemMessage id _ _ | UserMessage id _ _ | AssistantMessage id _ _
  | ReasoningMessage id _ _ | ToolCallMessage id _ _
  | ToolReturnMessage id _ _ => id
  end.

Definition messageType (m : LettaMessage) : MessageType :=
  match m with
  | SystemMessage _ _ _ => system_message
  | UserMessage _ _ _ => user_message
  | AssistantMessage _ _ _ => assistant_message
  | ReasoningMessage _ _ _ => reasoning_message
  | ToolCallMessage _ _ _ => tool_call_message
  | ToolReturnMessage _ _ _ => tool_return_message
  end.

(* ===================================================================== *)
(** ** UI messages (the output of the inbound converter) *)
(* ===================================================================== *)

Inductive Role : Type := RoleSystem | RoleUser | RoleAssistant.

Inductive ToolState : Type := OutputAvailable | OutputError.

(** The tool part object literal; [tp_type] is the [`tool-${toolName}`] tag. *)
Record ToolPart : Type := {
  tp_type : string;
  tp_toolCallId : string;
  tp_state : ToolState;
  tp_input : JsValue;
  tp_output : JsValue;
  tp_errorText : option string;
  tp_callProviderMetadata : option JsObject
}.

Inductive UIPart : Type :=
| TextUIPart (text : JsValue)
| FileUIPart (url : string) (mediaType : string)
| ReasoningUIPart (text : string) (providerMetadata : JsObject)
| ToolUIPart (t : ToolPart).

Record UIMessage : Type := {
  um_role : Role;
  um_id : string;
  um_parts : list UIPart
}.

(* ===================================================================== *)
(** ** transformMessageContent *)
(* ===================================================================== *)

(** The body of the [for (const val of content)] loop: the parts one
    fragment pushes, or the throw of the final [else]. *)
Definition transformFragment (val : JsObject) : Result (list UIPart) :=
  let partType := Js.get val "type" in
  if Js.strictEqStr partType "text" then
    Ok [TextUIPart (Js.get val "text")]
  else if Js.strictEqStr partType "image_url" then
    let url := Js.nullish (Js.optUrl (Js.get val "imageUrl"))
                          (Js.get val "imageUrl") in
    match Js.asString url with
    | Some u => Ok [FileUIPart u "image/*"]
    | None => Ok []
    end
  else if Js.strictEqStr partType "input_audio" then
    let audio := Js.get val "inputAudio" in
    let url := Js.nullish (Js.optUrl audio) JUndefined in
    match Js.asString url with
    | Some u => Ok [FileUIPart u "audio/*"]
    | None => Ok []
    end
  else
    Err (ContentTypeNotSupported partType).

Definition transformMessageContent (content : MessageContent)
  : Result (list UIPart) :=
  match content with
  | ContentArray fragments => flatMapM transformFragment fragments
  | ContentString s => Ok [TextUIPart (JStr s)]
  end.

(* ===================================================================== *)
(** ** The record [sdkMessageObj] and [Object.values] *)
(* ===================================================================== *)

(** [sdkMessageObj] is a plain object used as a table from message id to UI
    message.  Three facts of the language decide what the converter reads
    from and writes to it:
    - a property read falls through to [Object.prototype] when the object has
      no own property of that name;
    - an assignment through such an inherited value lands on the inherited
      object, not in the table;
    - [Object.values] lists the own properties whose names are array indices
      first, in ascending numeric order, then the others in creation order. *)

(** The names [Object.prototype] defines; each holds a function, or for
    [__proto__] yields the prototype object itself, so all read as truthy. *)
Definition objectPrototypeNames : list string :=
  [ "constructor"; "__defineGetter__"; "__defineSetter__"; "hasOwnProperty";
    "__lookupGetter__"; "__lookupSetter__"; "isPrototypeOf";
    "propertyIsEnumerable"; "toString"; "valueOf"; "__proto__";
    "toLocaleString" ].

Definition inheritedName (k : string) : bool :=
  existsb (String.eqb k) objectPrototypeNames.

(** The own properties of [sdkMessageObj] in creation order, and whether
    [Object.prototype] has been given [role] and [parts] by a write through
    [sdkMessageObj["__proto__"]] earlier in the call.  A call starts from
    the prototype the language defines. *)
Record Store : Type := {
  own : list (string * UIMessage);
  protoWritten : bool
}.

Definition emptyStore : Store := {| own := []; protoWritten := false |}.

Fixpoint lookup (k : string) (t : list (string * UIMessage)) : option UIMessage :=
  match t with
  | [] => None
  | (k', m) :: r => if String.eqb k' k then Some m else lookup k r
  end.

(** In-place update of the message object stored under [k]. *)
Fixpoint modify (k : string) (f : UIMessage -> UIMessage)
         (t : list (string * UIMessage)) : list (string * UIMessage) :=
  match t with
  | [] => []
  | (k', m) :: r =>
      if String.eqb k' k then (k', f m) :: r else (k', m) :: modify k f r
  end.

(** What [sdkMessageObj[k]] evaluates to. *)
Inductive Slot : Type :=
| SlotOwn (m : UIMessage)   (* the UI message created for [k] *)
| SlotForeign                (* an inherited object, outside the table *)
| SlotString                 (* the string [Object.prototype.role] *)
| SlotUndefined.

Definition slot (st : Store) (k : string) : Slot :=
  match lookup k (own st) with
  | Some m => SlotOwn m
  | None =>
      if inheritedName k then SlotForeign
      else if protoWritten st then
        if String.eqb k "role" then SlotString
        else if String.eqb k "parts" then SlotForeign
        else SlotUndefined
      else SlotUndefined
  end.

(** A write through [sdkMessageObj[k]] that reaches an inherited object: it
    changes the table never, and the prototype when [k] is [__proto__]. *)
Definition writeForeign (st : Store) (k : string) : Store :=
  if String.eqb k "__proto__"
  then {| own := own st; protoWritten := true |}
  else st.

(** [if (!sdkMessageObj[id]) sdkMessageObj[id] = { role: "assistant", id, parts: [] }] *)
Definition ensureMessage (st : Store) (id : string) : Store :=
  match slot st id with
  | SlotUndefined =>
      {| own := own st ++ [(id, {| um_role := RoleAssistant; um_id := id;
                                   um_parts := [] |})];
         protoWritten := protoWritten st |}
  | _ => st
  end.

(** [sdkMessageObj[id].role = r]; assigning a property of a primitive string
    throws in module (strict) code. *)
Definition setRole (st : Store) (id : string) (r : Role) : Result Store :=
  match slot st id with
  | SlotOwn _ =>
      Ok {| own := modify id (fun m => {| um_role := r; um_id := um_id m;
                                          um_parts := um_parts m |}) (own st);
            protoWritten := protoWritten st |}
  | SlotForeign => Ok (writeForeign st id)
  | SlotString => Err TypeError
  | SlotUndefined => Err TypeError
  end.

(** [if (!sdkMessageObj[id].parts) sdkMessageObj[id].parts = []]; a UI message
    of the table always has its array. *)
Definition ensureParts (st : Store) (id : string) : Result Store :=
  match slot st id with
  | SlotOwn _ => Ok st
  | SlotForeign => Ok (writeForeign st id)
  | SlotString => Ok st
  | SlotUndefined => Err TypeError
  end.

(** [sdkMessageObj[id].parts.push(...parts)] *)
Definition pushParts (st : Store) (id : string) (parts : list UIPart)
  : Result Store :=
  match slot st id with
  | SlotOwn _ =>
      Ok {| own := modify id (fun m => {| um_role := um_role m; um_id := um_id m;
                                          um_parts := um_parts m ++ parts |})
                         (own st);
            protoWritten := protoWritten st |}
  | SlotForeign => Ok st
  | SlotString => Ok st
  | SlotUndefined => Err TypeError
  end.

(** *** Array indices and the order of [Object.values] *)

(** The array index a property name denotes, if any: a canonical decimal
    numeral (digits only, no leading zero) of an integer below [2^32 - 1]. *)
Definition arrayIndex (k : string) : option N :=
  match NilZero.uint_of_string k with
  | Some d =>
      if Decimal.uint_beq (Decimal.unorm d) d && N.leb (N.of_uint d) 4294967294
      then Some (N.of_uint d)
      else None
  | None => None
  end.

Definition isArrayIndex (k : string) : bool :=
  match arrayIndex k with
  | Some _ => true
  | None => false
  end.

Definition indexOf (k : string) : N :=
  match arrayIndex k with
  | Some n => n
  | None => 0%N
  end.

Section OwnPropertyOrder.
Context {A : Type}.

Fixpoint insertByIndex (e : string * A) (l : list (string * A))
  : list (string * A) :=
  match l with
  | [] => [e]
  | e' :: r =>
      if N.leb (indexOf (fst e)) (indexOf (fst e'))
      then e :: l
      else e' :: insertByIndex e r
  end.

Fixpoint sortByIndex (l : list (string * A)) : list (string * A) :=
  match l with
  | [] => []
  | e :: r => insertByIndex e (sortByIndex r)
  end.

(** OrdinaryOwnPropertyKeys on string-named properties. *)
Definition ownPropertyOrder (props : list (string * A)) : list (string * A) :=
  sortByIndex (filter (fun e => isArrayIndex (fst e)) props)
  ++ filter (fun e => negb (isArrayIndex (fst e))) props.

Definition Object_values (props : list (string * A)) : list A :=
  map snd (ownPropertyOrder props).
End OwnPropertyOrder.

(* ===================================================================== *)
(** ** convertToAiSdkMessage *)
(* ===================================================================== *)

Record ConvertToAiSdkMessageOptions : Type := {
  allowMessageTypes : option (list MessageType)
}.

Definition baseOptions : ConvertToAiSdkMessageOptions :=
  {| allowMessageTypes :=
       Some [ user_message; assistant_message; system_message;
              tool_call_message; tool_return_message; reasoning_message ] |}.

(** [x ?? null] on the optional fields copied into the metadata. *)
Definition stringOrNull (x : option string) : JsValue :=
  match x with Some s => JStr s | None => JNull end.

Definition boolOrNull (x : option bool) : JsValue :=
  match x with Some b => JBool b | None => JNull end.

Definition numberOrNull (x : option SafeInteger) : JsValue :=
  match x with Some n => JNum n | None => JNull end.

Definition stringsOrNull (x : option (list string)) : JsValue :=
  match x with Some l => JArr (map JStr l) | None => JNull end.

Definition statusName (s : ToolReturnStatus) : string :=
  match s with StatusSuccess => "success" | StatusError => "error" end.

(** The [providerMetadata] literal of a reasoning part. *)
Definition reasoningMetadata (id : string) (date : Date) (r : Reasoning)
  : JsObject :=
  let p := rs_provenance r in
  [ ("letta",
     JObj [ ("id", JStr id);
            ("date", JStr (toISOString date));
            ("name", stringOrNull (name p));
            ("messageType", JStr (messageTypeName reasoning_message));
            ("otid", stringOrNull (otid p));
            ("senderId", stringOrNull (senderId p));
            ("stepId", stringOrNull (stepId p));
            ("isErr", boolOrNull (isErr p));
            ("seqId", numberOrNull (seqId p));
            ("runId", stringOrNull (runId p));
            ("reasoning", JStr (rs_reasoning r));
            ("source", stringOrNull (rs_source r)) ]) ].

(** The [callProviderMetadata] literal of a tool-return part. *)
Definition toolReturnMetadata (id : string) (date : Date) (t : ToolReturn)
  : JsObject :=
  let p := tr_provenance t in
  [ ("letta",
     JObj [ ("id", JStr id);
            ("date", JStr (toISOString date));
            ("name", stringOrNull (name p));
            ("messageType", JStr (messageTypeName tool_return_message));
            ("otid", stringOrNull (otid p));
            ("senderId", stringOrNull (senderId p));
            ("stepId", stringOrNull (stepId p));
            ("isErr", boolOrNull (isErr p));
            ("seqId", numberOrNull (seqId p));
            ("runId", stringOrNull (runId p));
            ("toolReturn", tr_toolReturn t);
            ("status", JStr (statusName (tr_status t)));
            ("toolCallId", JStr (tr_toolCallId t));
            ("stdout", stringsOrNull (tr_stdout t));
            ("stderr", stringsOrNull (tr_stderr t)) ]) ].

Definition reasoningPart (id : string) (date : Date) (r : Reasoning) : UIPart :=
  ReasoningUIPart (rs_reasoning r) (reasoningMetadata id date r).

(** [message.toolCall?.f || ""] *)
Definition toolCallField (toolCall : option ToolCall)
           (f : ToolCall -> option string) : string :=
  match toolCall with
  | Some c => Js.orEmpty (f c)
  | None => ""
  end.

Definition toolCallPart (toolCall : option ToolCall) : UIPart :=
  let toolName := toolCallField toolCall tc_name in
  ToolUIPart
    {| tp_type := ("tool-" ++ toolName)%string;
       tp_toolCallId := toolCallField toolCall tc_toolCallId;
       tp_state := OutputAvailable;
       tp_input := Js.or (match toolCall with
                          | Some c => tc_arguments c
                          | None => JUndefined
                          end) (JObj []);
       tp_output := JStr "";
       tp_errorText := None;
       tp_callProviderMetadata := None |}.

(** The [errorText] expression of the tool-return branch. *)
Definition toolReturnErrorText (t : ToolReturn) : option string :=
  match tr_status t with
  | StatusError =>
      match Js.asString (tr_toolReturn t) with
      | Some s => Some s
      | None => Js.stringify (tr_toolReturn t)
      end
  | StatusSuccess => None
  end.

Definition toolReturnPart (id : string) (date : Date) (t : ToolReturn) : UIPart :=
  let toolName := Js.orEmpty (name (tr_provenance t)) in
  (* [message.toolCallId || ""] is the id itself, a string *)
  let state := match tr_status t with
               | StatusError => OutputError
               | StatusSuccess => OutputAvailable
               end in
  ToolUIPart
    {| tp_type := ("tool-" ++ toolName)%string;
       tp_toolCallId := tr_toolCallId t;
       tp_state := state;
       tp_input := JObj [];
       tp_output := tr_toolReturn t;
       tp_errorText := toolReturnErrorText t;
       tp_callProviderMetadata := Some (toolReturnMetadata id date t) |}.

(** The branch of the [forEach] callback taken for the message's type, on
    the table after the lookup-or-create step. *)
Definition dispatch (st : Store) (message : LettaMessage) : Result Store :=
  match message with
  | SystemMessage id _ content =>
      st <- setRole st id RoleSystem ;;
      st <- ensureParts st id ;;
      pushParts st id [TextUIPart (JStr content)]
  | UserMessage id _ content =>
      st <- setRole st id RoleUser ;;
      parts <- transformMessageContent content ;;
      st <- ensureParts st id ;;
      pushParts st id parts
  | AssistantMessage id _ content =>
      st <- setRole st id RoleAssistant ;;
      parts <- transformMessageContent content ;;
      st <- ensureParts st id ;;
      pushParts st id parts
  | ReasoningMessage id date r =>
      st <- ensureParts st id ;;
      st <- setRole st id RoleAssistant ;;
      pushParts st id [reasoningPart id date r]
  | ToolCallMessage id _ toolCall =>
      st <- ensureParts st id ;;
      st <- setRole st id RoleAssistant ;;
      pushParts st id [toolCallPart toolCall]
  | ToolReturnMessage id date t =>
      st <- ensureParts st id ;;
      st <- setRole st id RoleAssistant ;;
      pushParts st id [toolReturnPart id date t]
  end.

Definition allows (allowMessageTypeSet : list MessageType) (message : LettaMessage)
  : bool :=
  existsb (MessageType_eqb (messageType message)) allowMessageTypeSet.

(** The callback of [messages.forEach]. *)
Definition processMessage (allowMessageTypeSet : list MessageType)
           (st : Store) (message : LettaMessage) : Result Store :=
  if negb (allows allowMessageTypeSet message) then Ok st
  else dispatch (ensureMessage st (messageId message)) message.

Fixpoint forEach (f : Store -> LettaMessage -> Result Store)
         (messages : list LettaMessage) (st : Store) : Result Store :=
  match messages with
  | [] => Ok st
  | m :: r => st' <- f st m ;; forEach f r st'
  end.

(** [new Set(options.allowMessageTypes || [])], with [options] defaulting
    to [baseOptions] when the argument is omitted. *)
Definition allowSetOf (options : option ConvertToAiSdkMessageOptions)
  : list MessageType :=
  let options := match options with Some o => o | None => baseOptions end in
  match allowMessageTypes options with
  | Some l => l
  | None => []
  end.

Definition convertToAiSdkMessage (messages : list LettaMessage)
           (options : option ConvertToAiSdkMessageOptions)
  : Result (list UIMessage) :=
  let allowMessageTypeSet := allowSetOf options in
  st <- forEach (processMessage allowMessageTypeSet) messages emptyStore ;;
  Ok (Object_values (own st)).

(* ===================================================================== *)
(** ** convertToLettaMessage *)
(* ===================================================================== *)

(** [transformContentParts] takes [any[]] and reads two properties of each
    part, [type] and [text]; anything offering them can be passed. *)
Class ContentPart (A : Type) : Type := {
  partType : A -> JsValue;
  partText : A -> JsValue
}.

#[export] Instance ContentPart_JsObject : ContentPart JsObject := {
  partType o := Js.get o "type";
  partText o := Js.get o "text"
}.

(** The [type] and [text] properties of the part objects built above. *)
#[export] Instance ContentPart_UIPart : ContentPart UIPart := {
  partType p :=
    match p with
    | TextUIPart _ => JStr "text"
    | FileUIPart _ _ => JStr "file"
    | ReasoningUIPart _ _ => JStr "reasoning"
    | ToolUIPart t => JStr (tp_type t)
    end;
  partText p :=
    match p with
    | TextUIPart text => text
    | ReasoningUIPart text _ => JStr text
    | FileUIPart _ _ | ToolUIPart _ => JUndefined
    end
}.

(** [{ type: "text", text }], the only fragment the outbound side emits. *)
Record TextFragment : Type := { tf_text : JsValue }.

(** The callback of [parts.flatMap]. *)
Definition transformContentPart {A : Type} `{ContentPart A} (part : A)
  : Result (list TextFragment) :=
  if Js.strictEqStr (partType part) "text" then
    Ok [ {| tf_text := partText part |} ]
  else
    match Js.asString (partType part) with
    | Some t =>
        if String.prefix "tool-" t then Ok []
        else Err (ContentTypeNotSupported (partType part))
    | None => Err (ContentTypeNotSupported (partType part))
    end.

Definition transformContentParts {A : Type} `{ContentPart A} (parts : list A)
  : Result (list TextFragment) :=
  flatMapM transformContentPart parts.

(** A value that is neither a string nor an array. *)
Inductive OtherValue : Type :=
| OtherUndefined
| OtherNull
| OtherBool (b : bool)
| OtherNumber (n : SafeInteger)
| OtherObject (props : JsObject).

(** The [content] of a prompt message: a string, an array (its elements are
    part objects, as the prompt type has them), or a value that is neither.
    Every array is a [PromptParts]: [Array.isArray] holds of it and of
    nothing else. *)
Inductive PromptContent : Type :=
| PromptString (s : string)
| PromptParts (parts : list JsObject)
| PromptOther (v : OtherValue).

Record PromptMessage : Type := {
  pm_role : string;
  pm_content : PromptContent
}.

Inductive CreateRole : Type := CreateUser | CreateSystem.

Inductive CreateContent : Type :=
| CreateString (s : string)
| CreateParts (parts : list TextFragment)
| CreateOther (v : OtherValue).

Record MessageCreate : Type := {
  mc_role : CreateRole;
  mc_content : CreateContent
}.

(** The callback of [prompt.map].  A user message whose content is not an
    array has no [flatMap] to call; the content of a system message is kept
    as it is when it is a string, transformed when it is an array
    ([Array.isArray]) and handed on untouched otherwise. *)
Definition convertPromptMessage (message : PromptMessage) : Result MessageCreate :=
  if String.eqb (pm_role message) "user" then
    match pm_content message with
    | PromptParts parts =>
        content <- transformContentParts parts ;;
        Ok {| mc_role := CreateUser; mc_content := CreateParts content |}
    | _ => Err TypeError
    end
  else if String.eqb (pm_role message) "assistant" then
    Err (RoleNotSupported AssistantRoleNotSupported)
  else if String.eqb (pm_role message) "tool" then
    Err (RoleNotSupported ToolRoleNotSupported)
  else if String.eqb (pm_role message) "system" then
    match pm_content message with
    | PromptString s =>
        Ok {| mc_role := CreateSystem; mc_content := CreateString s |}
    | PromptParts parts =>
        content <- transformContentParts parts ;;
        Ok {| mc_role := CreateSystem; mc_content := CreateParts content |}
    | PromptOther v =>
        Ok {| mc_role := CreateSystem; mc_content := CreateOther v |}
    end
  else
    Err (RoleNotSupported MessageRoleNotSupported).

Definition convertToLettaMessage (prompt : list PromptMessage)
  : Result (list MessageCreate) :=
  mapM convertPromptMessage prompt.

(* ===================================================================== *)
(** ** Vocabulary of the specification *)
(* ===================================================================== *)

(** Step 1 of the aggregator: the events whose kind is on the allow-list. *)
Definition allowedMessages (options : option ConvertToAiSdkMessageOptions)
           (messages : list LettaMessage) : list LettaMessage :=
  filter (allows (allowSetOf options)) messages.

Definition idIs (k : string) (message : LettaMessage) : bool :=
  String.eqb (messageId message) k.

(** The distinct elements of a list, each at its first occurrence. *)
Fixpoint firstOccurrences (l : list string) : list string :=
  match l with
  | [] => []
  | k :: r => k :: filter (fun k' => negb (String.eqb k' k)) (firstOccurrences r)
  end.

(** The ids met among the allowed events, in first-occurrence order. *)
Definition allowedIds (options : option ConvertToAiSdkMessageOptions)
           (messages : list LettaMessage) : list string :=
  firstOccurrences (map messageId (allowedMessages options messages)).

(** The role an event of a given kind leaves on its UI message. *)
Definition roleOf (t : MessageType) : Role :=
  match t with
  | system_message => RoleSystem
  | user_message => RoleUser
  | assistant_message | reasoning_message
  | tool_call_message | tool_return_message => RoleAssistant
  end.

(** The parts one event contributes to the UI message of its id. *)
Definition contribution (message : LettaMessage) : Result (list UIPart) :=
  match message with
  | SystemMessage _ _ content => Ok [TextUIPart (JStr content)]
  | UserMessage _ _ content | AssistantMessage _ _ content =>
      transformMessageContent content
  | ReasoningMessage id date r => Ok [reasoningPart id date r]
  | ToolCallMessage _ _ toolCall => Ok [toolCallPart toolCall]
  | ToolReturnMessage id date t => Ok [toolReturnPart id date t]
  end.

(** The concatenation, in order, of the contributions of a list of events. *)
Definition contributions (l : list LettaMessage) : Result (list UIPart) :=
  flatMapM contribution l.

(** The last event of a list that bears the id [k]. *)
Fixpoint lastFor (k : string) (l : list LettaMessage) : option LettaMessage :=
  match l with
  | [] => None
  | e :: r =>
      match lastFor k r with
      | Some e' => Some e'
      | None => if idIs k e then Some e else None
      end
  end.

(** Events none of whose ids names a property of [Object.prototype]. *)
Definition plainIds (l : list LettaMessage) : bool :=
  forallb (fun e => negb (inheritedName (messageId e))) l.

(** Type tags the inbound transform recognises, and those the outbound
    transform lets through (converted or skipped). *)
Definition inboundRecognised (tag : JsValue) : bool :=
  Js.strictEqStr tag "text" || Js.strictEqStr tag "image_url"
  || Js.strictEqStr tag "input_audio".

Definition outboundRecognised (tag : JsValue) : bool :=
  match tag with
  | JStr t => String.eqb t "text" || String.prefix "tool-" t
  | _ => false
  end.

(** A role the platform does not take as new input. *)
Definition rejectedRole (message : PromptMessage) : bool :=
  negb (String.eqb (pm_role message) "user"
        || String.eqb (pm_role message) "system").

(** An [image_url] fragment whose URL resolves neither from the nested [url]
    field nor from the field being a string itself; an [input_audio] fragment
    whose nested [url] is absent or not a string. *)
Definition imageUrlUnresolved (val : JsObject) : Prop :=
  Js.get val "type" = JStr "image_url"
  /\ Js.asString (Js.optUrl (Js.get val "imageUrl")) = None
  /\ Js.asString (Js.get val "imageUrl") = None.

Definition inputAudioUnresolved (val : JsObject) : Prop :=
  Js.get val "type" = JStr "input_audio"
  /\ Js.asString (Js.optUrl (Js.get val "inputAudio")) = None.

(* ===================================================================== *)
(** ** Vocabulary of the proofs *)
(* ===================================================================== *)

(** The effect of one event on the UI message of its id. *)
Definition touch (r : Role) (ps : list UIPart) (m : UIMessage) : UIMessage :=
  {| um_role := r; um_id := um_id m; um_parts := um_parts m ++ ps |}.

Definition fresh (k : string) : UIMessage :=
  {| um_role := RoleAssistant; um_id := k; um_parts := [] |}.

Definition withOwn (st : Store) (t : list (string * UIMessage)) : Store :=
  {| own := t; protoWritten := protoWritten st |}.

(** The UI message [m] stored under [k] after the allowed events [al]:
    its parts are the contributions of the events of [al] bearing [k], in
    order, and its role is that of the kind of the last of them. *)
Definition describes (al : list LettaMessage) (k : string) (m : UIMessage) : Prop :=
  um_id m = k
  /\ contributions (filter (idIs k) al) = Ok (um_parts m)
  /\ exists e, lastFor k al = Some e /\ um_role m = roleOf (messageType e).

Definition loopInvariant (al : list LettaMessage) (st : Store) : Prop :=
  NoDup (map fst (own st))
  /\ (forall k m, lookup k (own st) = Some m -> describes al k m)
  /\ (forall e, In e al -> slot st (messageId e) <> SlotUndefined).

(** When no allowed id names a property of [Object.prototype], the prototype
    is never written and the table holds one message per distinct id, in
    first-occurrence order. *)
Definition plainInvariant (al : list LettaMessage) (st : Store) : Prop :=
  protoWritten st = false
  /\ map fst (own st) = firstOccurrences (map messageId al).

(** Array-index names in strictly ascending numeric order. *)
Definition ascending (ks : list string) : Prop :=
  StronglySorted (fun a b => (indexOf a < indexOf b)%N) ks.

(* ===================================================================== *)
(** ** Conditions the specification speaks of *)
(* ===================================================================== *)

(** The ordering claim as the specification words it: the UI messages come
    back in first-occurrence order of their ids. *)
Definition firstOccurrenceOrder (messages : list LettaMessage)
           (options : option ConvertToAiSdkMessageOptions) : Prop :=
  forall out, convertToAiSdkMessage messages options = Ok out ->
              map um_id out = allowedIds options messages.

(** An event whose content array holds a fragment the inbound transform does
    not recognise; a prompt message whose parts hold one the outbound
    transform neither converts nor skips. *)
Definition hasUnrecognisedFragment (e : LettaMessage) : bool :=
  match e with
  | UserMessage _ _ (ContentArray fragments)
  | AssistantMessage _ _ (ContentArray fragments) =>
      existsb (fun val => negb (inboundRecognised (Js.get val "type"))) fragments
  | _ => false
  end.

Definition hasUnrecognisedPart (m : PromptMessage) : bool :=
  match pm_content m with
  | PromptParts parts =>
      existsb (fun part => negb (outboundRecognised (partType part))) parts
  | _ => false
  end.

(** A user message carries an array, as the prompt type has it. *)
Definition userContentIsArray (m : PromptMessage) : bool :=
  if String.eqb (pm_role m) "user" then
    match pm_content m with
    | PromptParts _ => true
    | _ => false
    end
  else true.

(** The input of either conversion call. *)
Inductive ConversionInput : Type :=
| Inbound (messages : list LettaMessage)
          (options : option ConvertToAiSdkMessageOptions)
| Outbound (prompt : list PromptMessage).

(** The input contains a fragment its transform variant does not recognise. *)
Definition containsUnrecognised (i : ConversionInput) : bool :=
  match i with
  | Inbound messages _ => existsb hasUnrecognisedFragment messages
  | Outbound prompt => existsb hasUnrecognisedPart prompt
  end.

(** Such a fragment sits where the call transforms content: in an allowed
    user or assistant event, in a user or system message. *)
Definition transformsUnrecognised (i : ConversionInput) : bool :=
  match i with
  | Inbound messages options =>
      existsb (fun e => allows (allowSetOf options) e && hasUnrecognisedFragment e)
              messages
  | Outbound prompt =>
      existsb (fun m => negb (rejectedRole m) && hasUnrecognisedPart m) prompt
  end.

(** Nothing but a content transform can throw: inbound, no allowed id names
    an inherited property; outbound, no role is rejected and user contents
    are arrays. *)
Definition onlyContentCanThrow (i : ConversionInput) : bool :=
  match i with
  | Inbound messages options => plainIds (allowedMessages options messages)
  | Outbound prompt =>
      forallb (fun m => negb (rejectedRole m) && userContentIsArray m) prompt
  end.

(** The call throws: the caller gets an error and no result, partial or not. *)
Definition throws (i : ConversionInput) : Prop :=
  match i with
  | Inbound messages options =>
      exists err, convertToAiSdkMessage messages options = Err err
  | Outbound prompt => exists err, convertToLettaMessage prompt = Err err
  end.

Definition throwsUnsupportedContentType (i : ConversionInput) : Prop :=
  match i with
  | Inbound messages options =>
      exists tag, inboundRecognised tag = false
                  /\ convertToAiSdkMessage messages options
                     = Err (ContentTypeNotSupported tag)
  | Outbound prompt =>
      exists tag, outboundRecognised tag = false
                  /\ convertToLettaMessage prompt
                     = Err (ContentTypeNotSupported tag)
  end.

(** A message the flattener accepts: a user message whose parts are all text
    or tool parts, or a system message with a string, with such parts, or
    with a value that is neither a string nor an array. *)
Definition validMessage (m : PromptMessage) : bool :=
  let recognised :=
    forallb (fun part : JsObject => outboundRecognised (partType part)) in
  if String.eqb (pm_role m) "user" then
    match pm_content m with
    | PromptParts parts => recognised parts
    | _ => false
    end
  else if String.eqb (pm_role m) "system" then
    match pm_content m with
    | PromptParts parts => recognised parts
    | _ => true
    end
  else false.

Definition onlyUserMessages : option ConvertToAiSdkMessageOptions :=
  Some {| allowMessageTypes := Some [user_message] |}.

(* ===================================================================== *)
(** ** Sample inputs *)
(* ===================================================================== *)

(** A sample timestamp for the concrete runs below. *)
Definition sampleDate : Date := {| toISOString := "2025-01-01T00:00:00.000Z" |}.

(** A run mixing numeral and other ids, with its result. *)
Definition mixedIdsRun : list LettaMessage :=
  [ UserMessage "b" sampleDate (ContentString "one");
    UserMessage "10" sampleDate (ContentString "two");
    ReasoningMessage "a" sampleDate
      {| rs_reasoning := "three"; rs_source := None;
         rs_provenance := {| name := None; otid := None; senderId := None;
                             stepId := None; isErr := None; seqId := None;
                             runId := None |} |};
    UserMessage "9" sampleDate (ContentString "four");
    AssistantMessage "b" sampleDate (ContentString "five") ].

Definition mixedIdsResult : list UIMessage :=
  Eval vm_compute in
    match convertToAiSdkMessage mixedIdsRun None with
    | Ok out => out
    | Err _ => []
    end.

Definition userThenToolReturn : list LettaMessage :=
  [ UserMessage "message-1" sampleDate (ContentString "run it");
    ToolReturnMessage "message-1" sampleDate
      {| tr_toolCallId := "call-1"; tr_toolReturn := JStr "done";
         tr_status := StatusSuccess; tr_stdout := None; tr_stderr := None;
         tr_provenance := {| name := Some "search"; otid := None;
                             senderId := None; stepId := None; isErr := None;
                             seqId := None; runId := None |} |} ].

Definition userThenToolReturnResult : list UIMessage :=
  Eval vm_compute in
    match convertToAiSdkMessage userThenToolReturn None with
    | Ok out => out
    | Err _ => []
    end.

(** An inbound run whose second event carries an unknown fragment. *)
Definition unknownFragmentRun : ConversionInput :=
  Inbound [ SystemMessage "message-0" sampleDate "be brief";
            UserMessage "message-1" sampleDate
              (ContentArray [ [("type", JStr "text"); ("text", JStr "see")];
                              [("type", JStr "unknown_kind")] ]) ]
          None.

(** A prompt with a system message, a user message and an assistant message. *)
Definition promptWithAssistant : list PromptMessage :=
  [ {| pm_role := "system"; pm_content := PromptString "be brief" |};
    {| pm_role := "user";
       pm_content := PromptParts [[("type", JStr "text"); ("text", JStr "hi")]] |};
    {| pm_role := "assistant";
       pm_content := PromptParts [[("type", JStr "text"); ("text", JStr "yo")]] |} ].

Definition seven : SafeInteger := {| int_value := 7; int_safe := eq_refl |}.

Definition minusThree : SafeInteger :=
  {| int_value := -3; int_safe := eq_refl |}.

Definition largestSafe : SafeInteger :=
  {| int_value := 9007199254740991; int_safe := eq_refl |}.

(** A tool return in error whose value is the object [{code: 7}]. *)
Definition failedReturn : ToolReturn :=
  {| tr_toolCallId := "call-1";
     tr_toolReturn := JObj [("code", JNum seven)];
     tr_status := StatusError;
     tr_stdout := None; tr_stderr := None;
     tr_provenance := {| name := Some "search"; otid := None; senderId := None;
                         stepId := None; isErr := None; seqId := None;
                         runId := None |} |}.

Definition sampleReasoning : Reasoning :=
  {| rs_reasoning := "thinking"; rs_source := None;
     rs_provenance := {| name := None; otid := None; senderId := None;
                         stepId := None; isErr := None; seqId := None;
                         runId := None |} |}.

(** An image fragment without any URL, and a text fragment. *)
Definition imageWithoutUrl : JsObject := [("type", JStr "image_url")].

Definition helloFragment : JsObject := [("type", JStr "text"); ("text", JStr "hello")].

(* ===================================================================== *)
(** ** createLetta: the options handed to the client *)
(* ===================================================================== *)

(** A value of an option typed [Supplier<string>], or of an environment
    variable: absent, a string, or a promise or function that supplies the
    string later ([D] stands for those; they are objects, hence truthy). *)
Inductive Supplied (D : Type) : Type :=
| NotSupplied
| SuppliedString (s : string)
| SuppliedLater (d : D).
Arguments NotSupplied {D}.
Arguments SuppliedString {D} s.
Arguments SuppliedLater {D} d.

(** [LettaClient.Options]: the two options [createLetta] looks at, and the
    others, which the spread [...options] copies. *)
Record ClientOptions (D : Type) : Type := {
  co_token : Supplied D;
  co_baseUrl : Supplied D;
  co_others : JsObject
}.
Arguments co_token {D} c.
Arguments co_baseUrl {D} c.
Arguments co_others {D} c.

(** The two variables read from [process.env]. *)
Record Environment : Type := {
  LETTA_API_KEY : option string;
  LETTA_BASE_URL : option string
}.

Definition envValue {D : Type} (v : option string) : Supplied D :=
  match v with
  | Some s => SuppliedString s
  | None => NotSupplied
  end.

Definition suppliedTruthy {D : Type} (v : Supplied D) : bool :=
  match v with
  | NotSupplied => false
  | SuppliedString s => negb (String.eqb s "")
  | SuppliedLater _ => true
  end.

(** [a || b] *)
Definition suppliedOr {D : Type} (a b : Supplied D) : Supplied D :=
  if suppliedTruthy a then a else b.

(** The argument of [new LettaClient(...)] in [createLetta]. *)
Definition clientOptions {D : Type} (options : ClientOptions D)
           (env : Environment) : ClientOptions D :=
  {| co_token := suppliedOr (co_token options) (envValue (LETTA_API_KEY env));
     co_baseUrl :=
       suppliedOr (suppliedOr (co_baseUrl options)
                              (envValue (LETTA_BASE_URL env)))
                  (SuppliedString "https://api.letta.com");
     co_others := co_others options |}.

(** What a call of the provider function gives: a chat model on a client,
    or one of its two errors. *)
Inductive ProviderResult (D : Type) : Type :=
| ChatModel (client : ClientOptions D)
| CalledWithNew
| CalledWithArguments.
Arguments ChatModel {D} client.
Arguments CalledWithNew {D}.
Arguments CalledWithArguments {D}.

(** The provider [createLetta] returns: its [client], and the function
    itself, given whether [new.target] is set and the arguments passed. *)
Record LettaProvider (D : Type) : Type := {
  client : ClientOptions D;
  call : bool -> list JsValue -> ProviderResult D
}.
Arguments client {D} l.
Arguments call {D} l _ _.

Definition createLetta {D : Type} (options : ClientOptions D)
           (env : Environment) : LettaProvider D :=
  let client := clientOptions options env in
  {| client := client;
     call newTarget arguments :=
       if newTarget then CalledWithNew
       else if Nat.ltb 0 (List.length arguments) then CalledWithArguments
       else ChatModel client |}.

(** [createLetta()] and [createLetta({ baseUrl: "http://localhost:8283" })]. *)
Definition noOptions {D : Type} : ClientOptions D :=
  {| co_token := NotSupplied; co_baseUrl := NotSupplied; co_others := [] |}.

Definition lettaCloud {D : Type} (env : Environment) : LettaProvider D :=
  createLetta noOptions env.

Definition lettaLocal {D : Type} (env : Environment) : LettaProvider D :=
  createLetta {| co_token := NotSupplied;
                 co_baseUrl := SuppliedString "http://localhost:8283";
                 co_others := [] |} env.

(* ===================================================================== *)
(** ** Further vocabulary *)
(* ===================================================================== *)

(** The parts [transformMessageContent] is typed to return. *)
Definition isTextOrFile (p : UIPart) : bool :=
  match p with
  | TextUIPart _ | FileUIPart _ _ => true
  | _ => false
  end.

(** The first fragment of a content array the inbound transform rejects. *)
Definition firstUnrecognised (fragments : list JsObject) : option JsObject :=
  find (fun val => negb (inboundRecognised (Js.get val "type"))) fragments.

(** Two allow-lists holding the same kinds. *)
Definition sameKinds (a b : list MessageType) : Prop :=
  forall t, In t a <-> In t b.

(** Parts the outbound transform takes: text parts, which it converts, and
    tool parts, which it skips. *)
Definition resubmittable (p : UIPart) : bool :=
  match p with
  | TextUIPart _ | ToolUIPart _ => true
  | _ => false
  end.

(** The text fragments of the text parts of a list, in order. *)
Definition textFragments (parts : list UIPart) : list TextFragment :=
  flat_map (fun p => match p with
                     | TextUIPart text => [ {| tf_text := text |} ]
                     | _ => []
                     end) parts.

(** A tool part carries a [tool-] tag. *)
Definition wellTagged (p : UIPart) : bool :=
  match p with
  | ToolUIPart t => String.prefix "tool-" (tp_type t)
  | _ => true
  end.

Definition isTextObject (part : JsObject) : bool :=
  Js.strictEqStr (Js.get part "type") "text".

(** The object [{ type: "text", text }] a text fragment is, and an outbound
    message read as a prompt message: the same object, under the other type. *)
Definition fragmentObject (f : TextFragment) : JsObject :=
  [("type", JStr "text"); ("text", tf_text f)].

Definition asPromptMessage (c : MessageCreate) : PromptMessage :=
  {| pm_role := match mc_role c with
                | CreateUser => "user"
                | CreateSystem => "system"
                end;
     pm_content := match mc_content c with
                   | CreateString s => PromptString s
                   | CreateParts parts => PromptParts (map fragmentObject parts)
                   | CreateOther v => PromptOther v
                   end |}.

(** How an outbound message answers a prompt message: same role, and for a
    user message an array of text fragments. *)
Definition answers (m : PromptMessage) (c : MessageCreate) : Prop :=
  (pm_role m = "user" /\ mc_role c = CreateUser
   /\ exists parts, mc_content c = CreateParts parts)
  \/ (pm_role m = "system" /\ mc_role c = CreateSystem).

(** The UI message one event makes on its own. *)
Definition converts (e : LettaMessage) (m : UIMessage) : Prop :=
  um_id m = messageId e
  /\ um_role m = roleOf (messageType e)
  /\ contribution e = Ok (um_parts m).

(* ===================================================================== *)
(** ** Further sample inputs *)
(* ===================================================================== *)

(** The first event of [userThenToolReturn] alone, and the rest. *)
Definition userAlone : list LettaMessage := firstn 1 userThenToolReturn.

Definition laterToolReturn : list LettaMessage := skipn 1 userThenToolReturn.

Definition userAloneResult : list UIMessage :=
  Eval vm_compute in
    match convertToAiSdkMessage userAlone None with
    | Ok out => out
    | Err _ => []
    end.

(** Three events of three ids, none of them a numeral. *)
Definition separateIdsRun : list LettaMessage :=
  [ SystemMessage "message-a" sampleDate "be brief";
    UserMessage "message-b" sampleDate (ContentString "hello");
    ReasoningMessage "message-c" sampleDate sampleReasoning ].

Definition separateIdsResult : list UIMessage :=
  Eval vm_compute in
    match convertToAiSdkMessage separateIdsRun None with
    | Ok out => out
    | Err _ => []
    end.

(** A prompt the flattener accepts, with a tool part among the user parts. *)
Definition acceptedPrompt : list PromptMessage :=
  [ {| pm_role := "system"; pm_content := PromptString "be brief" |};
    {| pm_role := "user";
       pm_content :=
         PromptParts [ [("type", JStr "text"); ("text", JStr "hi")];
                       [("type", JStr "tool-search"); ("state", JStr "done")];
                       [("type", JStr "text"); ("text", JStr "there")] ] |} ].

Definition acceptedPromptResult : list MessageCreate :=
  Eval vm_compute in
    match convertToLettaMessage acceptedPrompt with
    | Ok out => out
    | Err _ => []
    end.

(** The events of [mixedIdsRun] bearing [b], among other events in another
    order, and the UI message of [b]. *)
Definition reorderedRun : list LettaMessage :=
  [ ToolCallMessage "z" sampleDate None;
    UserMessage "b" sampleDate (ContentString "one");
    UserMessage "9" sampleDate (ContentString "four");
    AssistantMessage "b" sampleDate (ContentString "five") ].

Definition reorderedResult : list UIMessage :=
  Eval vm_compute in
    match convertToAiSdkMessage reorderedRun None with
    | Ok out => out
    | Err _ => []
    end.

Definition messageOfB : UIMessage :=
  {| um_role := RoleAssistant; um_id := "b";
     um_parts := [TextUIPart (JStr "one"); TextUIPart (JStr "five")] |}.

(** The UI message of [userThenToolReturn]: a text part and a tool part. *)
Definition toolTurn : UIMessage :=
  Eval vm_compute in hd (fresh "") userThenToolReturnResult.

(* ===================================================================== *)
(** ** The allow-list, as the specification words it *)
(* ===================================================================== *)

(** A kind that is not on the allow-list, in the specification's words: the
    list is the one the options supply, all six kinds when the options are
    omitted; options that supply no list leave no kind on it. *)
Definition disallowedKind (options : option ConvertToAiSdkMessageOptions)
           (t : MessageType) : Prop :=
  match options with
  | None => False
  | Some o =>
      match allowMessageTypes o with
      | Some kinds => ~ In t kinds
      | None => True
      end
  end.

(** The allow-list scenario as the specification words it: with the user
    kind alone on the allow-list, the events yield exactly one UI message, of
    role user, with exactly one part, a text part. *)
Definition yieldsOneUserText (messages : list LettaMessage) : Prop :=
  exists m t,
    convertToAiSdkMessage messages onlyUserMessages = Ok [m]
    /\ um_role m = RoleUser
    /\ um_parts m = [TextUIPart t].

Definition worldFragment : JsObject :=
  [("type", JStr "text"); ("text", JStr "world")].

(* ===================================================================== *)
(** ** Calls that may throw: basic facts *)
(* ===================================================================== *)

Lemma bind_Ok_inv {A B : Type} (r : Result A) (k : A -> Result B) (b : B) :
  bind r k = Ok b -> exists a, r = Ok a /\ k a = Ok b.
Proof.
  destruct r as [a | e]; simpl; intros H.
  - exists a. split; [reflexivity | exact H].
  - discriminate H.
Qed.

Lemma flatMapM_app {A B : Type} (f : A -> Result (list B)) (l1 l2 : list A) :
  flatMapM f (l1 ++ l2)
  = (xs <- flatMapM f l1 ;; ys <- flatMapM f l2 ;; Ok (xs ++ ys)).
Proof.
  induction l1 as [| x l1 IH]; simpl.
  - destruct (flatMapM f l2); reflexivity.
  - destruct (f x) as [ys | e]; simpl; [| reflexivity].
    rewrite IH. destruct (flatMapM f l1) as [xs | e]; simpl; [| reflexivity].
    destruct (flatMapM f l2) as [zs | e]; simpl; [| reflexivity].
    now rewrite app_assoc.
Qed.

Lemma forEach_app (f : Store -> LettaMessage -> Result Store)
      (l1 l2 : list LettaMessage) (st : Store) :
  forEach f (l1 ++ l2) st = (st' <- forEach f l1 st ;; forEach f l2 st').
Proof.
  revert st. induction l1 as [| m l1 IH]; intros st; simpl.
  - reflexivity.
  - destruct (f st m) as [st1 | e]; simpl; [apply IH | reflexivity].
Qed.

Lemma forEach_snoc (f : Store -> LettaMessage -> Result Store)
      (l : list LettaMessage) (m : LettaMessage) (st : Store) :
  forEach f (l ++ [m]) st = (st' <- forEach f l st ;; f st' m).
Proof.
  rewrite forEach_app. destruct (forEach f l st) as [st1 | e]; simpl.
  - destruct (f st1 m); reflexivity.
  - reflexivity.
Qed.

(* ===================================================================== *)
(** ** The table: lookup, in-place update, creation *)
(* ===================================================================== *)

Lemma lookup_None_iff (k : string) (t : list (string * UIMessage)) :
  lookup k t = None <-> ~ In k (map fst t).
Proof.
  induction t as [| [k' m] t IH]; simpl.
  - tauto.
  - destruct (String.eqb_spec k' k) as [-> | Hne].
    + split; [discriminate | intros H; exfalso; apply H; now left].
    + rewrite IH. tauto.
Qed.

Lemma lookup_In (k : string) (m : UIMessage) (t : list (string * UIMessage)) :
  lookup k t = Some m -> In (k, m) t.
Proof.
  induction t as [| [k' m'] t IH]; simpl; [discriminate |].
  destruct (String.eqb_spec k' k) as [-> | Hne].
  - intros [= ->]. now left.
  - intros H. right. now apply IH.
Qed.

Lemma In_lookup (k : string) (m : UIMessage) (t : list (string * UIMessage)) :
  NoDup (map fst t) -> In (k, m) t -> lookup k t = Some m.
Proof.
  induction t as [| [k' m'] t IH]; simpl; [tauto |].
  intros Hnd [Heq | Hin].
  - injection Heq as -> ->. now rewrite String.eqb_refl.
  - inversion Hnd as [| ? ? Hnotin Hnd']; subst.
    destruct (String.eqb_spec k' k) as [-> | Hne].
    + exfalso. apply Hnotin. change k with (fst (k, m)). now apply in_map.
    + now apply IH.
Qed.

Lemma map_fst_modify (k : string) (f : UIMessage -> UIMessage)
      (t : list (string * UIMessage)) :
  map fst (modify k f t) = map fst t.
Proof.
  induction t as [| [k' m] t IH]; simpl; [reflexivity |].
  destruct (String.eqb k' k); simpl; [reflexivity | now rewrite IH].
Qed.

Lemma lookup_modify_same (k : string) (f : UIMessage -> UIMessage)
      (t : list (string * UIMessage)) :
  lookup k (modify k f t) = option_map f (lookup k t).
Proof.
  induction t as [| [k' m] t IH]; simpl; [reflexivity |].
  destruct (String.eqb k' k) eqn:E; simpl; rewrite E; [reflexivity | exact IH].
Qed.

Lemma lookup_modify_other (k k0 : string) (f : UIMessage -> UIMessage)
      (t : list (string * UIMessage)) :
  k0 <> k -> lookup k0 (modify k f t) = lookup k0 t.
Proof.
  intros Hne. induction t as [| [k' m] t IH]; simpl; [reflexivity |].
  destruct (String.eqb_spec k' k) as [-> | Hk]; simpl.
  - destruct (String.eqb_spec k k0) as [-> | _]; [congruence | reflexivity].
  - destruct (String.eqb k' k0); [reflexivity | exact IH].
Qed.

Lemma modify_modify (k : string) (f g : UIMessage -> UIMessage)
      (t : list (string * UIMessage)) :
  modify k f (modify k g t) = modify k (fun m => f (g m)) t.
Proof.
  induction t as [| [k' m] t IH]; simpl; [reflexivity |].
  destruct (String.eqb k' k) eqn:E; simpl; rewrite E;
    [reflexivity | now rewrite IH].
Qed.

Lemma modify_snoc_new (k : string) (f : UIMessage -> UIMessage)
      (m : UIMessage) (t : list (string * UIMessage)) :
  lookup k t = None -> modify k f (t ++ [(k, m)]) = t ++ [(k, f m)].
Proof.
  induction t as [| [k' m'] t IH]; simpl.
  - now rewrite String.eqb_refl.
  - destruct (String.eqb k' k); [discriminate |].
    intros H. now rewrite IH.
Qed.

Lemma lookup_snoc (k k0 : string) (m : UIMessage) (t : list (string * UIMessage)) :
  lookup k0 (t ++ [(k, m)])
  = match lookup k0 t with
    | Some x => Some x
    | None => if String.eqb k k0 then Some m else None
    end.
Proof.
  induction t as [| [k' m'] t IH]; simpl; [reflexivity |].
  destruct (String.eqb k' k0); [reflexivity | exact IH].
Qed.

Lemma modify_ext (k : string) (f g : UIMessage -> UIMessage)
      (t : list (string * UIMessage)) :
  (forall m, f m = g m) -> modify k f t = modify k g t.
Proof.
  intros Hfg. induction t as [| [k' m] t IH]; simpl; [reflexivity |].
  destruct (String.eqb k' k); [now rewrite Hfg | now rewrite IH].
Qed.

(* ===================================================================== *)
(** ** One event: what the callback does to the table *)
(* ===================================================================== *)

Lemma slot_own (st : Store) (k : string) (m : UIMessage) :
  lookup k (own st) = Some m -> slot st k = SlotOwn m.
Proof. unfold slot. now intros ->. Qed.

Lemma slot_not_own (st : Store) (k : string) :
  (forall m, slot st k <> SlotOwn m) -> lookup k (own st) = None.
Proof.
  unfold slot. destruct (lookup k (own st)) as [m |]; [| reflexivity].
  intros H. now destruct (H m).
Qed.

Lemma setRole_own (st : Store) (k : string) (r : Role) (m : UIMessage) :
  lookup k (own st) = Some m ->
  setRole st k r
  = Ok (withOwn st (modify k (fun m => {| um_role := r; um_id := um_id m;
                                          um_parts := um_parts m |}) (own st))).
Proof. intros H. unfold setRole. now rewrite (slot_own _ _ _ H). Qed.

Lemma ensureParts_own (st : Store) (k : string) (m : UIMessage) :
  lookup k (own st) = Some m -> ensureParts st k = Ok st.
Proof. intros H. unfold ensureParts. now rewrite (slot_own _ _ _ H). Qed.

Lemma pushParts_own (st : Store) (k : string) (ps : list UIPart) (m : UIMessage) :
  lookup k (own st) = Some m ->
  pushParts st k ps
  = Ok (withOwn st (modify k (fun m => {| um_role := um_role m; um_id := um_id m;
                                          um_parts := um_parts m ++ ps |})
                           (own st))).
Proof. intros H. unfold pushParts. now rewrite (slot_own _ _ _ H). Qed.

Lemma role_then_push (st : Store) (k : string) (r : Role) (ps : list UIPart)
      (m : UIMessage) :
  lookup k (own st) = Some m ->
  (st1 <- setRole st k r ;; st2 <- ensureParts st1 k ;; pushParts st2 k ps)
  = Ok (withOwn st (modify k (touch r ps) (own st))).
Proof.
  intros H. rewrite (setRole_own _ _ _ _ H). simpl.
  set (st1 := withOwn st _).
  assert (H1 : lookup k (own st1)
               = Some {| um_role := r; um_id := um_id m; um_parts := um_parts m |}).
  { unfold st1. simpl. now rewrite lookup_modify_same, H. }
  rewrite (ensureParts_own _ _ _ H1). simpl.
  rewrite (pushParts_own _ _ _ _ H1). unfold st1, withOwn. simpl.
  now rewrite modify_modify.
Qed.

Lemma parts_then_role (st : Store) (k : string) (r : Role) (ps : list UIPart)
      (m : UIMessage) :
  lookup k (own st) = Some m ->
  (st1 <- ensureParts st k ;; st2 <- setRole st1 k r ;; pushParts st2 k ps)
  = Ok (withOwn st (modify k (touch r ps) (own st))).
Proof.
  intros H. rewrite (ensureParts_own _ _ _ H). simpl.
  rewrite (setRole_own _ _ _ _ H). simpl.
  set (st1 := withOwn st _).
  assert (H1 : lookup k (own st1)
               = Some {| um_role := r; um_id := um_id m; um_parts := um_parts m |}).
  { unfold st1. simpl. now rewrite lookup_modify_same, H. }
  rewrite (pushParts_own _ _ _ _ H1). unfold st1, withOwn. simpl.
  now rewrite modify_modify.
Qed.

(** On an id that has its UI message, the branch appends the event's
    contribution and sets the role of the event's kind. *)
Lemma dispatch_own (st : Store) (e : LettaMessage) (m : UIMessage) :
  lookup (messageId e) (own st) = Some m ->
  dispatch st e
  = (ps <- contribution e ;;
     Ok (withOwn st (modify (messageId e)
                            (touch (roleOf (messageType e)) ps) (own st)))).
Proof.
  intros H. destruct e as [id d c | id d c | id d c | id d r | id d tc | id d t];
    simpl in *.
  - apply (role_then_push _ _ _ _ _ H).
  - rewrite (setRole_own _ _ _ _ H). simpl.
    destruct (transformMessageContent c) as [ps | err]; simpl; [| reflexivity].
    rewrite <- (role_then_push _ _ RoleUser ps _ H).
    now rewrite (setRole_own _ _ _ _ H).
  - rewrite (setRole_own _ _ _ _ H). simpl.
    destruct (transformMessageContent c) as [ps | err]; simpl; [| reflexivity].
    rewrite <- (role_then_push _ _ RoleAssistant ps _ H).
    now rewrite (setRole_own _ _ _ _ H).
  - apply (parts_then_role _ _ _ _ _ H).
  - apply (parts_then_role _ _ _ _ _ H).
  - apply (parts_then_role _ _ _ _ _ H).
Qed.

Lemma slot_writeForeign (st : Store) (k : string) :
  slot st k = SlotForeign -> slot (writeForeign st k) k = SlotForeign.
Proof.
  unfold writeForeign. destruct (String.eqb_spec k "__proto__") as [-> | _];
    [| tauto].
  unfold slot. simpl. destruct (lookup "__proto__" (own st)); [discriminate |].
  reflexivity.
Qed.

Lemma writeForeign_idem (st : Store) (k : string) :
  writeForeign (writeForeign st k) k = writeForeign st k.
Proof.
  unfold writeForeign. destruct (String.eqb k "__proto__") eqn:E;
    rewrite ?E; reflexivity.
Qed.

(** On an id that reads as an inherited object, the branch leaves the table
    alone; it still runs the content transform, which may throw. *)
Lemma dispatch_foreign (st : Store) (e : LettaMessage) :
  slot st (messageId e) = SlotForeign ->
  dispatch st e
  = (ps <- contribution e ;; Ok (writeForeign st (messageId e))).
Proof.
  intros H. pose proof (slot_writeForeign _ _ H) as H'.
  destruct e as [id d c | id d c | id d c | id d r | id d tc | id d t];
    simpl in *; unfold setRole, ensureParts, pushParts; rewrite ?H; simpl;
    try destruct (transformMessageContent c) as [ps | err]; simpl;
    rewrite ?H'; simpl; rewrite ?writeForeign_idem, ?H'; simpl;
    rewrite ?writeForeign_idem; reflexivity.
Qed.

(** On an id that reads as the string left in [Object.prototype.role], the
    role assignment throws. *)
Lemma dispatch_string (st : Store) (e : LettaMessage) :
  slot st (messageId e) = SlotString -> dispatch st e = Err TypeError.
Proof.
  intros H.
  destruct e as [id d c | id d c | id d c | id d r | id d tc | id d t];
    simpl in *; unfold setRole, ensureParts; rewrite ?H; simpl; rewrite ?H;
    reflexivity.
Qed.

Lemma ensureMessage_undefined (st : Store) (k : string) :
  slot st k = SlotUndefined ->
  ensureMessage st k = withOwn st (own st ++ [(k, fresh k)])
  /\ lookup k (own st) = None.
Proof.
  intros H. unfold ensureMessage. rewrite H. split; [reflexivity |].
  apply slot_not_own. intros m. rewrite H. discriminate.
Qed.

Lemma ensureMessage_defined (st : Store) (k : string) :
  slot st k <> SlotUndefined -> ensureMessage st k = st.
Proof.
  intros H. unfold ensureMessage. destruct (slot st k); congruence.
Qed.

(** The callback on an allowed event, by what [sdkMessageObj[id]] reads as. *)
Lemma processMessage_allowed (allow : list MessageType) (st : Store)
      (e : LettaMessage) :
  allows allow e = true ->
  processMessage allow st e
  = match slot st (messageId e) with
    | SlotOwn _ =>
        ps <- contribution e ;;
        Ok (withOwn st (modify (messageId e)
                               (touch (roleOf (messageType e)) ps) (own st)))
    | SlotUndefined =>
        ps <- contribution e ;;
        Ok (withOwn st (own st ++ [(messageId e,
                                    touch (roleOf (messageType e)) ps
                                          (fresh (messageId e)))]))
    | SlotForeign =>
        ps <- contribution e ;; Ok (writeForeign st (messageId e))
    | SlotString => Err TypeError
    end.
Proof.
  intros Ha. unfold processMessage. rewrite Ha. simpl.
  destruct (slot st (messageId e)) as [m | | |] eqn:Hs.
  - rewrite ensureMessage_defined by (rewrite Hs; discriminate).
    apply (dispatch_own _ _ m).
    unfold slot in Hs. destruct (lookup (messageId e) (own st)) as [m' |].
    + now injection Hs as ->.
    + destruct (inheritedName _); [discriminate |].
      destruct (protoWritten st); [| discriminate].
      destruct (String.eqb _ "role"); [discriminate |].
      destruct (String.eqb _ "parts"); discriminate.
  - rewrite ensureMessage_defined by (rewrite Hs; discriminate).
    now apply dispatch_foreign.
  - rewrite ensureMessage_defined by (rewrite Hs; discriminate).
    now apply dispatch_string.
  - destruct (ensureMessage_undefined _ _ Hs) as [-> Hnone].
    rewrite (dispatch_own _ _ (fresh (messageId e))).
    + destruct (contribution e) as [ps | err]; simpl; [| reflexivity].
      unfold withOwn. simpl. now rewrite modify_snoc_new.
    + simpl. rewrite lookup_snoc, Hnone. now rewrite String.eqb_refl.
Qed.

Lemma processMessage_skipped (allow : list MessageType) (st : Store)
      (e : LettaMessage) :
  allows allow e = false -> processMessage allow st e = Ok st.
Proof. intros Ha. unfold processMessage. now rewrite Ha. Qed.

(* ===================================================================== *)
(** ** Lists of events: first occurrences, last event of an id *)
(* ===================================================================== *)

Lemma NoDup_snoc {A : Type} (l : list A) (x : A) :
  NoDup l -> ~ In x l -> NoDup (l ++ [x]).
Proof.
  induction l as [| a l IH]; simpl; intros Hnd Hnin.
  - constructor; [tauto | constructor].
  - inversion Hnd as [| ? ? Ha Hl]; subst. constructor.
    + rewrite in_app_iff. simpl. intros [H | [H | []]]; [tauto |].
      subst. apply Hnin. now left.
    + apply IH; tauto.
Qed.

Lemma filter_snoc {A : Type} (p : A -> bool) (l : list A) (x : A) :
  filter p (l ++ [x]) = filter p l ++ (if p x then [x] else []).
Proof. rewrite filter_app. reflexivity. Qed.

Lemma lastFor_snoc (k : string) (l : list LettaMessage) (e : LettaMessage) :
  lastFor k (l ++ [e]) = if idIs k e then Some e else lastFor k l.
Proof.
  induction l as [| x l IH]; simpl.
  - reflexivity.
  - rewrite IH. destruct (idIs k e); [reflexivity |].
    destruct (lastFor k l); reflexivity.
Qed.

Lemma lastFor_Some (k : string) (l : list LettaMessage) (e : LettaMessage) :
  lastFor k l = Some e -> In e l /\ messageId e = k.
Proof.
  induction l as [| x l IH]; simpl; [discriminate |].
  destruct (lastFor k l) as [e' |].
  - intros [= ->]. destruct (IH eq_refl) as [Hin Hid]. split; [now right | exact Hid].
  - unfold idIs. destruct (String.eqb_spec (messageId x) k) as [Hk | _];
      [| discriminate].
    intros [= ->]. split; [now left | exact Hk].
Qed.

Lemma contributions_snoc (l : list LettaMessage) (e : LettaMessage) :
  contributions (l ++ [e])
  = (xs <- contributions l ;; ys <- contribution e ;; Ok (xs ++ ys)).
Proof.
  unfold contributions. rewrite flatMapM_app. simpl.
  destruct (flatMapM contribution l) as [xs | err]; simpl; [| reflexivity].
  destruct (contribution e) as [ys | err]; simpl; [| reflexivity].
  now rewrite app_nil_r.
Qed.

Lemma firstOccurrences_In (k : string) (l : list string) :
  In k (firstOccurrences l) <-> In k l.
Proof.
  induction l as [| a l IH]; simpl; [tauto |].
  rewrite filter_In, IH.
  destruct (String.eqb_spec k a) as [-> | Hne]; simpl.
  - split; [| now left]. intros _. now left.
  - split.
    + intros [-> | [H _]]; [congruence | now right].
    + intros [-> | H]; [congruence | right; now split].
Qed.

Lemma firstOccurrences_snoc (l : list string) (k : string) :
  firstOccurrences (l ++ [k])
  = if existsb (String.eqb k) l then firstOccurrences l
    else firstOccurrences l ++ [k].
Proof.
  induction l as [| a l IH]; simpl; [reflexivity |].
  rewrite IH. destruct (existsb (String.eqb k) l) eqn:E.
  - now rewrite orb_true_r.
  - rewrite orb_false_r, filter_snoc.
    destruct (String.eqb k a); simpl; [now rewrite app_nil_r | reflexivity].
Qed.

Lemma firstOccurrences_NoDup (l : list string) : NoDup (firstOccurrences l).
Proof.
  induction l as [| a l IH]; simpl; [constructor |].
  constructor.
  - rewrite filter_In. intros [_ H]. now rewrite String.eqb_refl in H.
  - now apply NoDup_filter.
Qed.

Lemma existsb_eqb_In (k : string) (l : list string) :
  existsb (String.eqb k) l = true <-> In k l.
Proof.
  rewrite existsb_exists. split.
  - intros [x [Hin Heq]]. apply String.eqb_eq in Heq. now subst.
  - intros Hin. exists k. split; [exact Hin | apply String.eqb_refl].
Qed.

Lemma filter_idIs_nil (k : string) (l : list LettaMessage) :
  ~ In k (map messageId l) -> filter (idIs k) l = [].
Proof.
  induction l as [| e l IH]; simpl; [reflexivity |].
  intros H. unfold idIs at 1.
  destruct (String.eqb_spec (messageId e) k) as [Hk | _].
  - exfalso. apply H. now left.
  - apply IH. intros Hin. apply H. now right.
Qed.

(* ===================================================================== *)
(** ** The invariant of the [forEach] loop *)
(* ===================================================================== *)

Lemma describes_other (al : list LettaMessage) (e : LettaMessage)
      (k : string) (m : UIMessage) :
  messageId e <> k -> describes al k m -> describes (al ++ [e]) k m.
Proof.
  intros Hne (Hid & Hparts & e' & Hlast & Hrole).
  assert (Hf : idIs k e = false) by (unfold idIs; now apply String.eqb_neq).
  unfold describes. rewrite filter_snoc, lastFor_snoc, Hf, app_nil_r.
  repeat split; try assumption. now exists e'.
Qed.

Lemma describes_touch (al : list LettaMessage) (e : LettaMessage)
      (ps : list UIPart) (m : UIMessage) :
  contribution e = Ok ps ->
  um_id m = messageId e ->
  contributions (filter (idIs (messageId e)) al) = Ok (um_parts m) ->
  describes (al ++ [e]) (messageId e) (touch (roleOf (messageType e)) ps m).
Proof.
  intros Hps Hid Hparts.
  assert (Hf : idIs (messageId e) e = true) by apply String.eqb_refl.
  unfold describes. rewrite filter_snoc, lastFor_snoc, Hf, contributions_snoc.
  rewrite Hparts, Hps. simpl. repeat split; [exact Hid |].
  now exists e.
Qed.

Lemma slot_defined_mono (st st' : Store) (k : string) :
  (forall m, lookup k (own st) = Some m -> lookup k (own st') <> None) ->
  (lookup k (own st) = None -> lookup k (own st') = None -> 
   protoWritten st = true -> protoWritten st' = true) ->
  slot st k <> SlotUndefined -> slot st' k <> SlotUndefined.
Proof.
  unfold slot. intros Hown Hproto.
  destruct (lookup k (own st)) as [m |] eqn:E.
  - specialize (Hown m eq_refl).
    destruct (lookup k (own st')); [discriminate | congruence].
  - destruct (lookup k (own st')) as [m' |] eqn:E'; [discriminate |].
    destruct (inheritedName k); [discriminate |].
    destruct (protoWritten st); [| congruence].
    rewrite (Hproto eq_refl eq_refl eq_refl). tauto.
Qed.

Lemma loopInvariant_step (allow : list MessageType) (al : list LettaMessage)
      (st st' : Store) (e : LettaMessage) :
  allows allow e = true ->
  loopInvariant al st ->
  processMessage allow st e = Ok st' ->
  loopInvariant (al ++ [e]) st'.
Proof.
  intros Ha (Hnd & Hdesc & Hdef) Hstep.
  rewrite (processMessage_allowed _ _ _ Ha) in Hstep.
  destruct (slot st (messageId e)) as [m0 | | |] eqn:Hs.
  - (* the id has its message *)
    apply bind_Ok_inv in Hstep as (ps & Hps & [= <-]).
    assert (H0 : lookup (messageId e) (own st) = Some m0).
    { unfold slot in Hs. destruct (lookup (messageId e) (own st)) as [x |].
      - now injection Hs as ->.
      - destruct (inheritedName _); [discriminate |].
        destruct (protoWritten st); [| discriminate].
        destruct (String.eqb _ "role"); [discriminate |].
        destruct (String.eqb _ "parts"); discriminate. }
    destruct (Hdesc _ _ H0) as (Hid0 & Hparts0 & _).
    split; [| split]; simpl.
    + now rewrite map_fst_modify.
    + intros k m Hk. destruct (String.eqb_spec k (messageId e)) as [-> | Hne].
      * rewrite lookup_modify_same, H0 in Hk. injection Hk as <-.
        now apply describes_touch.
      * rewrite lookup_modify_other in Hk by exact Hne.
        apply describes_other; [congruence | now apply Hdesc].
    + intros e' Hin. apply in_app_or in Hin as [Hin | [<- | []]].
      * apply (slot_defined_mono st); [| | now apply Hdef].
        -- simpl. intros m Hm.
           destruct (String.eqb_spec (messageId e') (messageId e)) as [-> | Hne].
           ++ now rewrite lookup_modify_same, H0.
           ++ rewrite lookup_modify_other by exact Hne. congruence.
        -- tauto.
      * unfold slot. simpl. now rewrite lookup_modify_same, H0.
  - (* the id reads as an inherited object *)
    apply bind_Ok_inv in Hstep as (ps & Hps & [= <-]).
    assert (H0 : lookup (messageId e) (own st) = None).
    { apply slot_not_own. intros m. rewrite Hs. discriminate. }
    assert (Hown : own (writeForeign st (messageId e)) = own st).
    { unfold writeForeign. now destruct (String.eqb _ _). }
    split; [| split]; rewrite ?Hown.
    + exact Hnd.
    + intros k m Hk. apply describes_other; [congruence | now apply Hdesc].
    + intros e' Hin. apply in_app_or in Hin as [Hin | [<- | []]].
      * apply (slot_defined_mono st); [| | now apply Hdef].
        -- rewrite Hown. congruence.
        -- intros _ _ Hp. unfold writeForeign.
           now destruct (String.eqb _ _).
      * rewrite (slot_writeForeign _ _ Hs). discriminate.
  - discriminate Hstep.
  - (* the id is new: its message is created *)
    apply bind_Ok_inv in Hstep as (ps & Hps & [= <-]).
    assert (H0 : lookup (messageId e) (own st) = None).
    { apply slot_not_own. intros m. rewrite Hs. discriminate. }
    assert (Hnew : ~ In (messageId e) (map messageId al)).
    { intros Hin. apply in_map_iff in Hin as (e' & Heq & Hin).
      apply (Hdef e' Hin). now rewrite Heq. }
    split; [| split]; simpl.
    + rewrite map_app. simpl.
      apply NoDup_snoc; [exact Hnd | now apply lookup_None_iff].
    + intros k m Hk. rewrite lookup_snoc in Hk.
      destruct (lookup k (own st)) as [x |] eqn:Ex.
      * injection Hk as <-. apply describes_other; [congruence | now apply Hdesc].
      * destruct (String.eqb_spec (messageId e) k) as [<- | _]; [| discriminate].
        injection Hk as <-. apply describes_touch; [exact Hps | reflexivity |].
        now rewrite filter_idIs_nil.
    + intros e' Hin. apply in_app_or in Hin as [Hin | [<- | []]].
      * apply (slot_defined_mono st); [| | now apply Hdef].
        -- simpl. intros m Hm. rewrite lookup_snoc, Hm. discriminate.
        -- tauto.
      * unfold slot. simpl. rewrite lookup_snoc, H0, String.eqb_refl. discriminate.
Qed.

Lemma loopInvariant_empty : loopInvariant [] emptyStore.
Proof.
  split; [constructor | split]; simpl.
  - discriminate.
  - tauto.
Qed.

(** After the loop, the table describes the allowed events. *)
Lemma forEach_invariant (allow : list MessageType) (l : list LettaMessage)
      (st : Store) :
  forEach (processMessage allow) l emptyStore = Ok st ->
  loopInvariant (filter (allows allow) l) st.
Proof.
  revert st. induction l as [| e l IH] using rev_ind; intros st H.
  - injection H as <-. apply loopInvariant_empty.
  - rewrite forEach_snoc in H. apply bind_Ok_inv in H as (st1 & H1 & Hstep).
    specialize (IH _ H1). rewrite filter_snoc.
    destruct (allows allow e) eqn:Ha.
    + now apply (loopInvariant_step allow _ st1).
    + rewrite (processMessage_skipped _ _ _ Ha) in Hstep. injection Hstep as <-.
      now rewrite app_nil_r.
Qed.

Lemma slot_plain (st : Store) (k : string) :
  protoWritten st = false -> inheritedName k = false ->
  slot st k = match lookup k (own st) with
              | Some m => SlotOwn m
              | None => SlotUndefined
              end.
Proof. intros Hp Hk. unfold slot. now rewrite Hp, Hk. Qed.

Lemma plainInvariant_step (allow : list MessageType) (al : list LettaMessage)
      (st st' : Store) (e : LettaMessage) :
  allows allow e = true ->
  inheritedName (messageId e) = false ->
  plainInvariant al st ->
  processMessage allow st e = Ok st' ->
  plainInvariant (al ++ [e]) st'.
Proof.
  intros Ha Hplain (Hp & Hkeys) Hstep.
  rewrite (processMessage_allowed _ _ _ Ha), (slot_plain _ _ Hp Hplain) in Hstep.
  unfold plainInvariant. rewrite map_app. simpl. rewrite firstOccurrences_snoc.
  destruct (lookup (messageId e) (own st)) as [m0 |] eqn:H0;
    apply bind_Ok_inv in Hstep as (ps & _ & [= <-]); simpl.
  - split; [exact Hp |]. rewrite map_fst_modify, Hkeys.
    assert (Hin : In (messageId e) (map messageId al)).
    { apply firstOccurrences_In. rewrite <- Hkeys.
      destruct (in_dec string_dec (messageId e) (map fst (own st))) as [H | H];
        [exact H |].
      apply lookup_None_iff in H. congruence. }
    apply existsb_eqb_In in Hin. now rewrite Hin.
  - split; [exact Hp |]. rewrite map_app, Hkeys. simpl.
    assert (Hnin : existsb (String.eqb (messageId e)) (map messageId al) = false).
    { apply not_true_is_false. rewrite existsb_eqb_In, <- firstOccurrences_In.
      rewrite <- Hkeys. now apply lookup_None_iff. }
    now rewrite Hnin.
Qed.

Lemma forEach_plain (allow : list MessageType) (l : list LettaMessage)
      (st : Store) :
  plainIds (filter (allows allow) l) = true ->
  forEach (processMessage allow) l emptyStore = Ok st ->
  plainInvariant (filter (allows allow) l) st.
Proof.
  revert st. induction l as [| e l IH] using rev_ind; intros st Hplain H.
  - injection H as <-. split; reflexivity.
  - rewrite forEach_snoc in H. apply bind_Ok_inv in H as (st1 & H1 & Hstep).
    rewrite filter_snoc in Hplain |- *.
    unfold plainIds in Hplain. rewrite forallb_app in Hplain.
    apply andb_true_iff in Hplain as [Hplain1 Hplain2].
    specialize (IH _ Hplain1 H1).
    destruct (allows allow e) eqn:Ha.
    + apply (plainInvariant_step allow _ st1); try assumption.
      simpl in Hplain2. rewrite andb_true_r in Hplain2.
      now apply negb_true_iff.
    + rewrite (processMessage_skipped _ _ _ Ha) in Hstep. injection Hstep as <-.
      now rewrite app_nil_r.
Qed.

(* ===================================================================== *)
(** ** [Object.values]: the same entries, array indices first *)
(* ===================================================================== *)

Lemma filter_partition_perm {B : Type} (p : B -> bool) (l : list B) :
  Permutation (filter p l ++ filter (fun e => negb (p e)) l) l.
Proof.
  induction l as [| e l IH]; simpl; [constructor |].
  destruct (p e); simpl.
  - now apply perm_skip.
  - apply Permutation_sym. apply Permutation_cons_app. now apply Permutation_sym.
Qed.

(** Distinct array-index names denote distinct indices. *)
Lemma arrayIndex_inj (a b : string) (n : N) :
  arrayIndex a = Some n -> arrayIndex b = Some n -> a = b.
Proof.
  unfold arrayIndex.
  destruct (NilZero.uint_of_string a) as [da |] eqn:Ea; [| discriminate].
  destruct (NilZero.uint_of_string b) as [db |] eqn:Eb; [| discriminate].
  destruct (Decimal.uint_beq (Decimal.unorm da) da) eqn:Na; [| discriminate].
  destruct (Decimal.uint_beq (Decimal.unorm db) db) eqn:Nb; [| discriminate].
  apply Decimal.internal_uint_dec_bl in Na, Nb. simpl.
  destruct (N.leb (N.of_uint da) 4294967294); [| discriminate].
  destruct (N.leb (N.of_uint db) 4294967294); [| discriminate].
  intros [= Ha] [= Hb].
  assert (Hd : da = db).
  { rewrite <- Na, <- Nb, <- !DecimalN.Unsigned.to_of. congruence. }
  apply NilZero.sus in Ea, Eb. congruence.
Qed.

Lemma indexOf_inj (a b : string) :
  isArrayIndex a = true -> isArrayIndex b = true ->
  indexOf a = indexOf b -> a = b.
Proof.
  unfold isArrayIndex, indexOf.
  destruct (arrayIndex a) as [n |] eqn:Ea; [| discriminate].
  destruct (arrayIndex b) as [m |] eqn:Eb; [| discriminate].
  intros _ _ ->. now apply (arrayIndex_inj a b m).
Qed.

Section OwnPropertyOrderFacts.
Context {A : Type}.
Implicit Types (l : list (string * A)) (e : string * A).

Lemma insertByIndex_perm e l : Permutation (e :: l) (insertByIndex e l).
Proof.
  induction l as [| e' l IH]; simpl; [apply Permutation_refl |].
  destruct (N.leb _ _); [apply Permutation_refl |].
  eapply perm_trans; [apply perm_swap |]. now apply perm_skip.
Qed.

Lemma sortByIndex_perm l : Permutation l (sortByIndex l).
Proof.
  induction l as [| e l IH]; simpl; [constructor |].
  eapply perm_trans; [| apply insertByIndex_perm]. now apply perm_skip.
Qed.

Lemma ownPropertyOrder_perm l : Permutation (ownPropertyOrder l) l.
Proof.
  unfold ownPropertyOrder.
  eapply perm_trans;
    [| apply (filter_partition_perm (fun e => isArrayIndex (fst e)))].
  apply Permutation_app_tail. apply Permutation_sym, sortByIndex_perm.
Qed.

Lemma insertByIndex_sorted e l :
  isArrayIndex (fst e) = true ->
  Forall (fun k => isArrayIndex k = true) (map fst l) ->
  ~ In (fst e) (map fst l) ->
  ascending (map fst l) -> ascending (map fst (insertByIndex e l)).
Proof.
  unfold ascending. intros He.
  induction l as [| e' l IH]; simpl; intros Hix Hnew Hs.
  - constructor; constructor.
  - inversion Hs as [| ? ? Hs' Hall]; subst.
    inversion Hix as [| ? ? He' Hix']; subst.
    destruct (N.leb_spec (indexOf (fst e)) (indexOf (fst e'))) as [Hle | Hlt].
    + assert (Hlt : (indexOf (fst e) < indexOf (fst e'))%N).
      { destruct (N.eq_dec (indexOf (fst e)) (indexOf (fst e'))) as [Heq | Hne];
          [| lia].
        exfalso. apply Hnew. left. symmetry. now apply indexOf_inj. }
      simpl. constructor; [exact Hs |]. constructor; [exact Hlt |].
      eapply Forall_impl; [| exact Hall]. simpl. intros a Ha. lia.
    + simpl. constructor; [apply IH; tauto |].
      apply Forall_forall. intros k Hk.
      apply (Permutation_in k (Permutation_map fst
               (Permutation_sym (insertByIndex_perm e l)))) in Hk.
      simpl in Hk. destruct Hk as [<- | Hk]; [lia |].
      now apply (proj1 (Forall_forall _ _) Hall).
Qed.

Lemma sortByIndex_sorted l :
  Forall (fun k => isArrayIndex k = true) (map fst l) ->
  NoDup (map fst l) ->
  ascending (map fst (sortByIndex l)).
Proof.
  induction l as [| e l IH]; simpl; intros Hix Hnd; [constructor |].
  inversion Hix as [| ? ? He Hix']; subst.
  inversion Hnd as [| ? ? Hnew Hnd']; subst.
  pose proof (Permutation_map fst (sortByIndex_perm l)) as Hperm.
  apply insertByIndex_sorted.
  - exact He.
  - apply (Permutation_Forall Hperm Hix').
  - intros Hin. apply Hnew.
    now apply (Permutation_in _ (Permutation_sym Hperm)).
  - now apply IH.
Qed.
End OwnPropertyOrderFacts.

(* ===================================================================== *)
(** ** The result of [convertToAiSdkMessage] *)
(* ===================================================================== *)

Lemma convert_inv (messages : list LettaMessage)
      (options : option ConvertToAiSdkMessageOptions) (out : list UIMessage) :
  convertToAiSdkMessage messages options = Ok out ->
  exists st,
    forEach (processMessage (allowSetOf options)) messages emptyStore = Ok st
    /\ out = Object_values (own st).
Proof.
  unfold convertToAiSdkMessage. intros H.
  apply bind_Ok_inv in H as (st & Hst & [= <-]). now exists st.
Qed.

Lemma In_Object_values (t : list (string * UIMessage)) (m : UIMessage) :
  In m (Object_values t) <-> exists k, In (k, m) t.
Proof.
  unfold Object_values. rewrite in_map_iff. split.
  - intros ([k m'] & Heq & Hin). simpl in Heq. subst m'. exists k.
    now apply (Permutation_in _ (ownPropertyOrder_perm t)).
  - intros (k & Hin). exists (k, m). split; [reflexivity |].
    now apply (Permutation_in _ (Permutation_sym (ownPropertyOrder_perm t))).
Qed.

(** Every UI message returned is described by the allowed events of its id. *)
Lemma convert_describes (messages : list LettaMessage)
      (options : option ConvertToAiSdkMessageOptions) (out : list UIMessage)
      (m : UIMessage) :
  convertToAiSdkMessage messages options = Ok out ->
  In m out ->
  describes (allowedMessages options messages) (um_id m) m.
Proof.
  intros H Hin. apply convert_inv in H as (st & Hst & ->).
  apply forEach_invariant in Hst as (Hnd & Hdesc & _).
  apply In_Object_values in Hin as (k & Hin).
  apply (In_lookup _ _ _ Hnd) in Hin. specialize (Hdesc _ _ Hin).
  destruct Hdesc as (Hid & Hrest). rewrite Hid. now split.
Qed.

Lemma map_fst_filter_keys {A : Type} (p : string -> bool) (l : list (string * A)) :
  map fst (filter (fun e => p (fst e)) l) = filter p (map fst l).
Proof.
  induction l as [| e l IH]; simpl; [reflexivity |].
  destruct (p (fst e)); simpl; now rewrite IH.
Qed.

(** The ids of the UI messages returned, when every allowed id is plain:
    the array indices among the distinct ids, ascending, then the other
    distinct ids in first-occurrence order. *)
Lemma convert_ids (messages : list LettaMessage)
      (options : option ConvertToAiSdkMessageOptions) (out : list UIMessage) :
  plainIds (allowedMessages options messages) = true ->
  convertToAiSdkMessage messages options = Ok out ->
  exists idx,
    map um_id out
    = idx ++ filter (fun k => negb (isArrayIndex k)) (allowedIds options messages)
    /\ Permutation idx (filter isArrayIndex (allowedIds options messages))
    /\ ascending idx.
Proof.
  intros Hplain H. apply convert_inv in H as (st & Hst & ->).
  pose proof (forEach_invariant _ _ _ Hst) as (Hnd & Hdesc & _).
  pose proof (forEach_plain _ _ _ Hplain Hst) as (_ & Hkeys).
  assert (Hids : map um_id (Object_values (own st))
                 = map fst (ownPropertyOrder (own st))).
  { unfold Object_values. rewrite map_map. apply map_ext_in.
    intros [k m] Hin. simpl.
    apply (Permutation_in _ (ownPropertyOrder_perm (own st))) in Hin.
    apply (In_lookup _ _ _ Hnd) in Hin. now destruct (Hdesc _ _ Hin). }
  rewrite Hids. unfold ownPropertyOrder. rewrite map_app.
  exists (map fst (sortByIndex (filter (fun e => isArrayIndex (fst e)) (own st)))).
  unfold allowedIds, allowedMessages. rewrite <- Hkeys.
  split; [| split].
  - f_equal. apply (map_fst_filter_keys (fun k => negb (isArrayIndex k))).
  - rewrite <- (map_fst_filter_keys isArrayIndex).
    apply Permutation_map, Permutation_sym, sortByIndex_perm.
  - apply sortByIndex_sorted.
    + rewrite (map_fst_filter_keys isArrayIndex). apply Forall_forall.
      intros k Hk. now apply filter_In in Hk.
    + rewrite (map_fst_filter_keys isArrayIndex). now apply NoDup_filter.
Qed.

Lemma filter_all_true {A : Type} (p : A -> bool) (l : list A) :
  (forall x, In x l -> p x = true) -> filter p l = l.
Proof.
  induction l as [| a l IH]; simpl; intros H; [reflexivity |].
  rewrite (H a) by now left. f_equal. apply IH. intros x Hx. apply H. now right.
Qed.

Lemma filter_all_false {A : Type} (p : A -> bool) (l : list A) :
  (forall x, In x l -> p x = false) -> filter p l = [].
Proof.
  induction l as [| a l IH]; simpl; intros H; [reflexivity |].
  rewrite (H a) by now left. apply IH. intros x Hx. apply H. now right.
Qed.

(** The grouping invariant for plain ids: one UI message per distinct allowed
    id, each carrying the contributions of the allowed events of its id in
    input order. *)
Theorem grouping_of_plain_ids (messages : list LettaMessage)
        (options : option ConvertToAiSdkMessageOptions) (out : list UIMessage) :
  plainIds (allowedMessages options messages) = true ->
  convertToAiSdkMessage messages options = Ok out ->
  List.length out = List.length (allowedIds options messages)
  /\ Permutation (map um_id out) (allowedIds options messages)
  /\ forall m, In m out ->
       contributions (filter (idIs (um_id m)) (allowedMessages options messages))
       = Ok (um_parts m).
Proof.
  intros Hplain H.
  destruct (convert_ids _ _ _ Hplain H) as (idx & Hids & Hperm & _).
  assert (P : Permutation (map um_id out) (allowedIds options messages)).
  { rewrite Hids. eapply perm_trans; [apply Permutation_app_tail, Hperm |].
    apply (filter_partition_perm isArrayIndex). }
  split; [| split].
  - rewrite <- (length_map um_id). now apply Permutation_length.
  - exact P.
  - intros m Hin. now destruct (convert_describes _ _ _ _ H Hin) as (_ & Hp & _).
Qed.

(* ===================================================================== *)
(** ** Grouping and ordering *)
(* ===================================================================== *)

(** C1 (grouping invariant), evaluated where it breaks: an allowed user event
    whose id is [constructor] is one distinct id contributing one text part,
    yet the converter returns no UI message at all.  The lookup
    [sdkMessageObj["constructor"]] reads the inherited [Object] function, so no
    message is created and role and parts are written on that function.  The
    converter's own documentation promises one UI message per unique id; for
    ids that name no inherited property the invariant holds, see
    [grouping_of_plain_ids]. *)
Theorem C1_inherited_id_yields_no_message (d : Date) :
  let messages := [UserMessage "constructor" d (ContentString "hi")] in
  allowedIds None messages = ["constructor"]
  /\ contributions (allowedMessages None messages) = Ok [TextUIPart (JStr "hi")]
  /\ convertToAiSdkMessage messages None = Ok [].
Proof. repeat split. Qed.

(** C2 as stated fails for ids that are decimal numerals: events with ids
    [2] then [1] come back with [1] before [2]. *)
Lemma C2_numeral_ids_counterexample :
  ~ firstOccurrenceOrder
      [ UserMessage "2" sampleDate (ContentString "first");
        UserMessage "1" sampleDate (ContentString "second") ] None.
Proof.
  intros H. specialize (H _ eq_refl). discriminate H.
Qed.

(** C2, amended: when no allowed id names an inherited property, the UI
    messages whose ids are array indices come first, in ascending numeric
    order, followed by the others in first-occurrence order of their ids; in
    particular the whole result is in first-occurrence order when no id is an
    array index. *)
Theorem C2_array_indices_then_first_occurrence
        (messages : list LettaMessage)
        (options : option ConvertToAiSdkMessageOptions) (out : list UIMessage) :
  plainIds (allowedMessages options messages) = true ->
  convertToAiSdkMessage messages options = Ok out ->
  (exists idx,
      map um_id out
      = idx ++ filter (fun k => negb (isArrayIndex k)) (allowedIds options messages)
      /\ Permutation idx (filter isArrayIndex (allowedIds options messages))
      /\ ascending idx)
  /\ ((forall k, In k (allowedIds options messages) -> isArrayIndex k = false) ->
      map um_id out = allowedIds options messages).
Proof.
  intros Hplain H. pose proof (convert_ids _ _ _ Hplain H) as Hids.
  split; [exact Hids |].
  intros Hnone. destruct Hids as (idx & -> & Hperm & _).
  rewrite (filter_all_false isArrayIndex) in Hperm by exact Hnone.
  apply Permutation_sym, Permutation_nil in Hperm. subst idx. simpl.
  apply filter_all_true. intros k Hk. now rewrite (Hnone k Hk).
Qed.

Lemma C2_array_indices_then_first_occurrence_witness :
  (plainIds (allowedMessages None mixedIdsRun) = true
   /\ convertToAiSdkMessage mixedIdsRun None = Ok mixedIdsResult)
  /\ allowedIds None mixedIdsRun = ["b"; "10"; "a"; "9"]
  /\ map um_id mixedIdsResult = ["9"; "10"; "b"; "a"]
  /\ exists idx,
       map um_id mixedIdsResult
       = idx ++ filter (fun k => negb (isArrayIndex k))
                       (allowedIds None mixedIdsRun)
       /\ Permutation idx (filter isArrayIndex (allowedIds None mixedIdsRun))
       /\ ascending idx.
Proof.
  split; [split; reflexivity |].
  split; [reflexivity |]. split; [reflexivity |].
  exact (proj1 (C2_array_indices_then_first_occurrence
                  mixedIdsRun None mixedIdsResult eq_refl eq_refl)).
Defined.

(* ===================================================================== *)
(** ** Role precedence *)
(* ===================================================================== *)

Lemma lastFor_app (k : string) (l1 l2 : list LettaMessage) :
  lastFor k (l1 ++ l2)
  = match lastFor k l2 with
    | Some e => Some e
    | None => lastFor k l1
    end.
Proof.
  induction l1 as [| x l1 IH]; simpl.
  - now destruct (lastFor k l2).
  - rewrite IH. destruct (lastFor k l2); [reflexivity |].
    reflexivity.
Qed.

Lemma lastFor_None (k : string) (l : list LettaMessage) :
  filter (idIs k) l = [] -> lastFor k l = None.
Proof.
  induction l as [| x l IH]; simpl; [reflexivity |].
  destruct (idIs k x); [discriminate |]. intros H. now rewrite IH.
Qed.

Lemma contributions_app_inv (l1 l2 : list LettaMessage) (ps : list UIPart) :
  contributions (l1 ++ l2) = Ok ps ->
  exists xs ys, contributions l1 = Ok xs /\ contributions l2 = Ok ys
                /\ ps = xs ++ ys.
Proof.
  unfold contributions. rewrite flatMapM_app. intros H.
  apply bind_Ok_inv in H as (xs & Hxs & H).
  apply bind_Ok_inv in H as (ys & Hys & [= <-]).
  now exists xs, ys.
Qed.

Lemma contributions_cons_inv (e : LettaMessage) (l : list LettaMessage)
      (ps : list UIPart) :
  contributions (e :: l) = Ok ps ->
  exists xs ys, contribution e = Ok xs /\ contributions l = Ok ys
                /\ ps = xs ++ ys.
Proof.
  unfold contributions. simpl. intros H.
  apply bind_Ok_inv in H as (xs & Hxs & H).
  apply bind_Ok_inv in H as (ys & Hys & [= <-]).
  now exists xs, ys.
Qed.

(** C3 (role precedence).  In every result of the aggregator, the role of a
    UI message is the one set by the last allowed event of its id: system,
    user and assistant events set their own kind, reasoning, tool-call and
    tool-return events set assistant.  In particular, when a user event and a
    later tool-return event share an id, both are allowed and the tool return
    is the last allowed event of that id, the UI message of that id has role
    assistant and its parts contain, in this order, the parts of the user
    event and the part of the tool return.  For ids that name no inherited
    property this UI message exists. *)
Theorem C3_last_event_decides_role
        (messages : list LettaMessage)
        (options : option ConvertToAiSdkMessageOptions) (out : list UIMessage) :
  convertToAiSdkMessage messages options = Ok out ->
  (forall m, In m out ->
     exists e, lastFor (um_id m) (allowedMessages options messages) = Some e
               /\ um_role m = roleOf (messageType e))
  /\ (forall pre mid post id du c dt t,
        messages = pre ++ UserMessage id du c
                       :: mid ++ ToolReturnMessage id dt t :: post ->
        allows (allowSetOf options) (UserMessage id du c) = true ->
        allows (allowSetOf options) (ToolReturnMessage id dt t) = true ->
        filter (idIs id) (allowedMessages options post) = [] ->
        (forall m, In m out -> um_id m = id ->
           um_role m = RoleAssistant
           /\ exists ps before between,
                transformMessageContent c = Ok ps
                /\ um_parts m
                   = before ++ ps ++ between ++ [toolReturnPart id dt t])
        /\ (plainIds (allowedMessages options messages) = true ->
            exists m, In m out /\ um_id m = id)).
Proof.
  intros H. split.
  - intros m Hin. now destruct (convert_describes _ _ _ _ H Hin) as (_ & _ & He).
  - intros pre mid post id du c dt t -> Hu Ht Hpost.
    assert (Hal : allowedMessages options
                    (pre ++ UserMessage id du c
                         :: mid ++ ToolReturnMessage id dt t :: post)
                  = allowedMessages options pre
                    ++ UserMessage id du c
                    :: allowedMessages options mid
                    ++ ToolReturnMessage id dt t :: allowedMessages options post).
    { unfold allowedMessages. rewrite filter_app. simpl. rewrite Hu.
      rewrite filter_app. simpl. now rewrite Ht. }
    split.
    + intros m Hin Hid.
      destruct (convert_describes _ _ _ _ H Hin) as (_ & Hparts & e & He & Hrole).
      rewrite Hid, Hal in *.
      split.
      * rewrite lastFor_app in He. simpl in He.
        rewrite lastFor_app in He. simpl in He.
        rewrite (lastFor_None _ _ Hpost) in He. unfold idIs in He at 1.
        simpl in He. rewrite String.eqb_refl in He. injection He as <-.
        exact Hrole.
      * rewrite filter_app in Hparts. simpl in Hparts. unfold idIs in Hparts at 2.
        simpl in Hparts. rewrite String.eqb_refl in Hparts.
        rewrite filter_app in Hparts. simpl in Hparts.
        unfold idIs in Hparts at 3. simpl in Hparts.
        rewrite String.eqb_refl, Hpost in Hparts.
        apply contributions_app_inv in Hparts as (before & rest & _ & Hrest & ->).
        apply contributions_cons_inv in Hrest as (ps & rest' & Hps & Hrest' & ->).
        apply contributions_app_inv in Hrest' as (between & lst & _ & Hlst & ->).
        simpl in Hps. unfold contributions in Hlst. simpl in Hlst.
        injection Hlst as <-. now exists ps, before, between.
    + intros Hplain.
      destruct (grouping_of_plain_ids _ _ _ Hplain H) as (_ & Hperm & _).
      assert (Hin : In id (map um_id out)).
      { apply (Permutation_in _ (Permutation_sym Hperm)).
        unfold allowedIds. apply firstOccurrences_In. rewrite Hal, map_app.
        apply in_or_app. right. now left. }
      apply in_map_iff in Hin as (m & Hid & Hin). now exists m.
Qed.

Lemma C3_last_event_decides_role_witness :
  convertToAiSdkMessage userThenToolReturn None = Ok userThenToolReturnResult
  /\ (forall m, In m userThenToolReturnResult ->
        exists e, lastFor (um_id m) (allowedMessages None userThenToolReturn)
                  = Some e
                  /\ um_role m = roleOf (messageType e))
  /\ map um_role userThenToolReturnResult = [RoleAssistant].
Proof.
  split; [reflexivity |]. split; [| reflexivity].
  exact (proj1 (C3_last_event_decides_role
                  userThenToolReturn None userThenToolReturnResult eq_refl)).
Defined.

(* ===================================================================== *)
(** ** Unsupported content types *)
(* ===================================================================== *)

Lemma flatMapM_Err_intro {A B : Type} (f : A -> Result (list B)) (l : list A)
      (x : A) (e : Error) :
  In x l -> f x = Err e -> exists e', flatMapM f l = Err e'.
Proof.
  induction l as [| a l IH]; simpl; [tauto |].
  intros [-> | Hin] Hx.
  - rewrite Hx. now exists e.
  - destruct (f a) as [ys | e0]; simpl; [| now exists e0].
    destruct (IH Hin Hx) as (e' & ->). now exists e'.
Qed.

Lemma flatMapM_Err_inv {A B : Type} (f : A -> Result (list B)) (l : list A)
      (e : Error) :
  flatMapM f l = Err e -> exists x, In x l /\ f x = Err e.
Proof.
  induction l as [| a l IH]; simpl; [discriminate |].
  destruct (f a) as [ys | e0] eqn:Ea; simpl.
  - destruct (flatMapM f l) as [zs | e1]; simpl; [discriminate |].
    intros [= ->]. destruct (IH eq_refl) as (x & Hin & Hx).
    exists x. split; [now right | exact Hx].
  - intros [= ->]. exists a. split; [now left | exact Ea].
Qed.

Lemma mapM_Err_intro {A B : Type} (f : A -> Result B) (l : list A)
      (x : A) (e : Error) :
  In x l -> f x = Err e -> exists e', mapM f l = Err e'.
Proof.
  induction l as [| a l IH]; simpl; [tauto |].
  intros [-> | Hin] Hx.
  - rewrite Hx. now exists e.
  - destruct (f a) as [y | e0]; simpl; [| now exists e0].
    destruct (IH Hin Hx) as (e' & ->). now exists e'.
Qed.

Lemma mapM_Err_inv {A B : Type} (f : A -> Result B) (l : list A) (e : Error) :
  mapM f l = Err e -> exists x, In x l /\ f x = Err e.
Proof.
  induction l as [| a l IH]; simpl; [discriminate |].
  destruct (f a) as [y | e0] eqn:Ea; simpl.
  - destruct (mapM f l) as [ys | e1]; simpl; [discriminate |].
    intros [= ->]. destruct (IH eq_refl) as (x & Hin & Hx).
    exists x. split; [now right | exact Hx].
  - intros [= ->]. exists a. split; [now left | exact Ea].
Qed.

Lemma transformFragment_unrecognised (val : JsObject) :
  inboundRecognised (Js.get val "type") = false ->
  transformFragment val = Err (ContentTypeNotSupported (Js.get val "type")).
Proof.
  unfold inboundRecognised, transformFragment. intros H.
  apply orb_false_iff in H as [H H3]. apply orb_false_iff in H as [H1 H2].
  now rewrite H1, H2, H3.
Qed.

Lemma transformFragment_Err_inv (val : JsObject) (e : Error) :
  transformFragment val = Err e ->
  e = ContentTypeNotSupported (Js.get val "type")
  /\ inboundRecognised (Js.get val "type") = false.
Proof.
  unfold inboundRecognised, transformFragment.
  destruct (Js.strictEqStr (Js.get val "type") "text"); [discriminate |].
  destruct (Js.strictEqStr (Js.get val "type") "image_url").
  { destruct (Js.asString _); discriminate. }
  destruct (Js.strictEqStr (Js.get val "type") "input_audio").
  { destruct (Js.asString _); discriminate. }
  intros [= <-]. now split.
Qed.

Lemma contribution_Err_inv (e : LettaMessage) (err : Error) :
  contribution e = Err err ->
  exists tag, err = ContentTypeNotSupported tag /\ inboundRecognised tag = false.
Proof.
  destruct e as [id d c | id d c | id d c | id d r | id d tc | id d t];
    simpl; try discriminate;
    (destruct c as [s | fragments]; simpl; [discriminate |];
     intros H; apply flatMapM_Err_inv in H as (val & _ & H);
     apply transformFragment_Err_inv in H as [-> H];
     now exists (Js.get val "type")).
Qed.

Lemma contribution_unrecognised (e : LettaMessage) :
  hasUnrecognisedFragment e = true -> exists err, contribution e = Err err.
Proof.
  destruct e as [id d c | id d c | id d c | id d r | id d tc | id d t];
    simpl; try discriminate;
    (destruct c as [s | fragments]; [discriminate |];
     intros H; apply existsb_exists in H as (val & Hin & H);
     apply negb_true_iff, transformFragment_unrecognised in H;
     simpl; apply (flatMapM_Err_intro _ _ _ _ Hin H)).
Qed.

(** The callback throws on an allowed event whose contribution throws. *)
Lemma processMessage_throws (allow : list MessageType) (st : Store)
      (e : LettaMessage) (err : Error) :
  allows allow e = true -> contribution e = Err err ->
  exists err', processMessage allow st e = Err err'.
Proof.
  intros Ha He. rewrite (processMessage_allowed _ _ _ Ha), He.
  destruct (slot st (messageId e)); simpl; eauto.
Qed.

Lemma forEach_throws (allow : list MessageType) (l : list LettaMessage)
      (st : Store) (e : LettaMessage) (err : Error) :
  In e l -> allows allow e = true -> contribution e = Err err ->
  exists err', forEach (processMessage allow) l st = Err err'.
Proof.
  revert st. induction l as [| a l IH]; simpl; [tauto |].
  intros st [-> | Hin] Ha He.
  - destruct (processMessage_throws allow st e err Ha He) as (err' & ->).
    now exists err'.
  - destruct (processMessage allow st a) as [st1 | e0]; simpl; [| now exists e0].
    now apply IH.
Qed.

(** With plain ids the prototype stays as it was, so the only throw is the
    content transform's. *)
Lemma forEach_plain_Err (allow : list MessageType) (l : list LettaMessage)
      (st : Store) (err : Error) :
  protoWritten st = false ->
  plainIds (filter (allows allow) l) = true ->
  forEach (processMessage allow) l st = Err err ->
  exists tag, err = ContentTypeNotSupported tag /\ inboundRecognised tag = false.
Proof.
  revert st. induction l as [| a l IH]; simpl; [discriminate |].
  intros st Hp Hplain H. destruct (allows allow a) eqn:Ha.
  - simpl in Hplain. apply andb_true_iff in Hplain as [Hn Hplain].
    apply negb_true_iff in Hn.
    rewrite (processMessage_allowed _ _ _ Ha), (slot_plain _ _ Hp Hn) in H.
    destruct (contribution a) as [ps | e0] eqn:Ec.
    + destruct (lookup (messageId a) (own st)); simpl in H;
        refine (IH _ _ Hplain H); exact Hp.
    + apply contribution_Err_inv in Ec.
      destruct (lookup (messageId a) (own st)); simpl in H;
        injection H as <-; exact Ec.
  - rewrite (processMessage_skipped _ _ _ Ha) in H. simpl in H.
    now apply (IH st).
Qed.

Lemma transformContentPart_unrecognised {A : Type} `{ContentPart A} (part : A) :
  outboundRecognised (partType part) = false ->
  transformContentPart part = Err (ContentTypeNotSupported (partType part)).
Proof.
  unfold outboundRecognised, transformContentPart, Js.strictEqStr, Js.asString.
  destruct (partType part) as [| | b | z | t | items | props]; try reflexivity.
  intros Hr. apply orb_false_iff in Hr as [-> ->]. reflexivity.
Qed.

Lemma transformContentPart_Err_inv {A : Type} `{ContentPart A} (part : A)
      (e : Error) :
  transformContentPart part = Err e ->
  e = ContentTypeNotSupported (partType part)
  /\ outboundRecognised (partType part) = false.
Proof.
  unfold outboundRecognised, transformContentPart, Js.strictEqStr, Js.asString.
  destruct (partType part) as [| | b | z | t | items | props];
    try (intros [= <-]; now split).
  destruct (String.eqb t "text"); [discriminate |].
  destruct (String.prefix "tool-" t); [discriminate |].
  intros [= <-]. now split.
Qed.

Lemma rejectedRole_false (m : PromptMessage) :
  rejectedRole m = false ->
  String.eqb (pm_role m) "user" = true
  \/ (String.eqb (pm_role m) "user" = false
      /\ String.eqb (pm_role m) "assistant" = false
      /\ String.eqb (pm_role m) "tool" = false
      /\ String.eqb (pm_role m) "system" = true).
Proof.
  unfold rejectedRole. intros H. apply negb_false_iff, orb_true_iff in H.
  destruct (String.eqb (pm_role m) "user") eqn:Eu; [now left |].
  destruct H as [H | H]; [discriminate |]. right.
  apply String.eqb_eq in H. rewrite H. repeat split.
Qed.

Lemma convertPromptMessage_unrecognised (m : PromptMessage) :
  rejectedRole m = false -> hasUnrecognisedPart m = true ->
  exists e, convertPromptMessage m = Err e.
Proof.
  intros Hr Hu. unfold hasUnrecognisedPart in Hu. unfold convertPromptMessage.
  destruct (pm_content m) as [s | parts | v]; try discriminate.
  apply existsb_exists in Hu as (part & Hin & Hu).
  apply negb_true_iff, transformContentPart_unrecognised in Hu.
  destruct (flatMapM_Err_intro _ _ _ _ Hin Hu) as (e & He).
  unfold transformContentParts.
  destruct (rejectedRole_false _ Hr) as [-> | (-> & -> & -> & ->)];
    rewrite He; now exists e.
Qed.

Lemma convertPromptMessage_Err_inv (m : PromptMessage) (e : Error) :
  rejectedRole m = false -> userContentIsArray m = true ->
  convertPromptMessage m = Err e ->
  exists tag, e = ContentTypeNotSupported tag /\ outboundRecognised tag = false.
Proof.
  unfold userContentIsArray, convertPromptMessage, transformContentParts.
  intros Hr Ha.
  destruct (rejectedRole_false _ Hr) as [Hu | (Hu & Has & Ht & Hs)];
    rewrite Hu in *; rewrite ?Has, ?Ht, ?Hs;
    destruct (pm_content m) as [s | parts | v]; try discriminate;
    (destruct (flatMapM transformContentPart parts) as [c | e0] eqn:E;
     simpl; [discriminate |]; intros [= <-];
     apply flatMapM_Err_inv in E as (part & _ & E);
     apply transformContentPart_Err_inv in E as [-> E];
     now exists (partType part)).
Qed.

Lemma convertPromptMessage_rejected (m : PromptMessage) :
  rejectedRole m = true ->
  exists e, convertPromptMessage m = Err (RoleNotSupported e).
Proof.
  unfold rejectedRole, convertPromptMessage. intros H.
  apply negb_true_iff, orb_false_iff in H as [-> ->].
  destruct (String.eqb (pm_role m) "assistant"); [eauto |].
  destruct (String.eqb (pm_role m) "tool"); eauto.
Qed.

(** C4 as stated fails twice.  Inbound, the allow-list is applied before any
    content is looked at: a user event with an unknown fragment that the
    allow-list drops leaves the call returning the empty list.  Outbound, the
    role is checked before the parts: an unknown part in an assistant message
    makes the call fail with the role error. *)
Lemma C4_filtered_or_rejected_first_counterexample :
  let dropped :=
    Inbound [ UserMessage "message-1" sampleDate
                (ContentArray [[("type", JStr "unknown_kind")]]) ]
            (Some {| allowMessageTypes := Some [reasoning_message] |}) in
  let assistant :=
    Outbound [ {| pm_role := "assistant";
                  pm_content := PromptParts [[("type", JStr "unknown_kind")]] |} ] in
  ~ (containsUnrecognised dropped = true -> throwsUnsupportedContentType dropped)
  /\ ~ (containsUnrecognised assistant = true ->
        throwsUnsupportedContentType assistant).
Proof.
  split; intros H; destruct (H eq_refl) as (tag & _ & Htag); discriminate Htag.
Qed.

(** C4, amended.  When an unrecognised fragment sits where the call
    transforms content (inbound: in an allowed user or assistant event, type
    none of text, image_url, input_audio; outbound: in a user or system
    message, type neither text nor prefixed by [tool-]), the call throws and
    the caller receives no result, partial or not.  What it throws is the
    unsupported-content-type error whenever nothing else can throw: inbound,
    no allowed id names an inherited property; outbound, no message has a
    rejected role and user contents are arrays. *)
Theorem C4_unrecognised_fragment_aborts_call (i : ConversionInput) :
  transformsUnrecognised i = true ->
  throws i /\ (onlyContentCanThrow i = true -> throwsUnsupportedContentType i).
Proof.
  destruct i as [messages options | prompt]; simpl; intros H.
  - apply existsb_exists in H as (e & Hin & H).
    apply andb_true_iff in H as [Ha Hu].
    destruct (contribution_unrecognised _ Hu) as (err & Herr).
    destruct (forEach_throws _ _ emptyStore _ _ Hin Ha Herr) as (err' & Hthrow).
    assert (Hconv : convertToAiSdkMessage messages options = Err err').
    { unfold convertToAiSdkMessage. now rewrite Hthrow. }
    split; [now exists err' |].
    intros Hplain.
    destruct (forEach_plain_Err _ _ emptyStore _ eq_refl Hplain Hthrow)
      as (tag & Herr' & Htag).
    exists tag. split; [exact Htag | now rewrite Hconv, Herr'].
  - apply existsb_exists in H as (m & Hin & H).
    apply andb_true_iff in H as [Hr Hu]. apply negb_true_iff in Hr.
    destruct (convertPromptMessage_unrecognised _ Hr Hu) as (e & He).
    destruct (mapM_Err_intro _ _ _ _ Hin He) as (e' & Hthrow).
    split; [now exists e' |].
    intros Hall. unfold convertToLettaMessage in *.
    destruct (mapM_Err_inv _ _ _ Hthrow) as (x & Hx & Hxe).
    rewrite forallb_forall in Hall. specialize (Hall x Hx).
    apply andb_true_iff in Hall as [Hxr Hxa]. apply negb_true_iff in Hxr.
    destruct (convertPromptMessage_Err_inv _ _ Hxr Hxa Hxe) as (tag & Htag1 & Htag).
    exists tag. split; [exact Htag | now rewrite Hthrow, Htag1].
Qed.

Lemma C4_unrecognised_fragment_aborts_call_witness :
  transformsUnrecognised unknownFragmentRun = true
  /\ throws unknownFragmentRun
  /\ throwsUnsupportedContentType unknownFragmentRun.
Proof.
  split; [reflexivity |].
  split.
  - exact (proj1 (C4_unrecognised_fragment_aborts_call unknownFragmentRun eq_refl)).
  - exact (proj2 (C4_unrecognised_fragment_aborts_call unknownFragmentRun eq_refl)
                 eq_refl).
Defined.

(* ===================================================================== *)
(** ** Rejected roles *)
(* ===================================================================== *)

Lemma flatMapM_Ok {A B : Type} (f : A -> Result (list B)) (l : list A) :
  (forall x, In x l -> exists ys, f x = Ok ys) -> exists zs, flatMapM f l = Ok zs.
Proof.
  induction l as [| a l IH]; simpl; intros H; [now exists [] |].
  destruct (H a (or_introl eq_refl)) as (ys & ->).
  destruct IH as (zs & ->); [intros x Hx; apply H; now right |].
  simpl. now exists (ys ++ zs).
Qed.

Lemma transformContentPart_recognised {A : Type} `{ContentPart A} (part : A) :
  outboundRecognised (partType part) = true ->
  exists ys, transformContentPart part = Ok ys.
Proof.
  unfold outboundRecognised, transformContentPart, Js.strictEqStr, Js.asString.
  destruct (partType part) as [| | b | z | t | items | props]; try discriminate.
  destruct (String.eqb t "text"); simpl; [eauto |].
  intros ->. eauto.
Qed.

Lemma transformContentParts_recognised (parts : list JsObject) :
  forallb (fun part : JsObject => outboundRecognised (partType part)) parts = true ->
  exists c, transformContentParts parts = Ok c.
Proof.
  intros H. apply flatMapM_Ok. intros part Hin.
  apply transformContentPart_recognised.
  rewrite forallb_forall in H. now apply H.
Qed.

Lemma validMessage_converts (m : PromptMessage) :
  validMessage m = true -> exists c, convertPromptMessage m = Ok c.
Proof.
  unfold validMessage, convertPromptMessage.
  destruct (String.eqb (pm_role m) "user") eqn:Eu.
  - destruct (pm_content m) as [s | parts | v]; try discriminate.
    intros H. destruct (transformContentParts_recognised _ H) as (c & ->).
    simpl. eauto.
  - destruct (String.eqb (pm_role m) "system") eqn:Es; [| discriminate].
    apply String.eqb_eq in Es. rewrite Es. simpl.
    destruct (pm_content m) as [s | parts | v]; eauto.
    intros H. destruct (transformContentParts_recognised _ H) as (c & ->).
    simpl. eauto.
Qed.

(** C5 (outbound role rejection).  A prompt containing a message whose role
    is neither user nor system (assistant, tool, or anything else) makes
    [convertToLettaMessage] throw, so no outbound sequence, partial or not, is
    returned; and whatever valid messages the prompt holds besides, what it
    throws is the unsupported-role error. *)
Theorem C5_rejected_role_aborts_flatten (prompt : list PromptMessage) :
  existsb rejectedRole prompt = true ->
  (exists err, convertToLettaMessage prompt = Err err)
  /\ (forallb (fun m => rejectedRole m || validMessage m) prompt = true ->
      exists e, convertToLettaMessage prompt = Err (RoleNotSupported e)).
Proof.
  intros H. apply existsb_exists in H as (m & Hin & Hm).
  destruct (convertPromptMessage_rejected _ Hm) as (e & He).
  destruct (mapM_Err_intro _ _ _ _ Hin He) as (err & Hthrow).
  unfold convertToLettaMessage. split; [now exists err |].
  intros Hvalid. rewrite Hthrow.
  destruct (mapM_Err_inv _ _ _ Hthrow) as (x & Hx & Hxe).
  rewrite forallb_forall in Hvalid. specialize (Hvalid x Hx).
  apply orb_true_iff in Hvalid as [Hr | Hv].
  - destruct (convertPromptMessage_rejected _ Hr) as (e' & He').
    exists e'. congruence.
  - destruct (validMessage_converts _ Hv) as (c & Hc). congruence.
Qed.

Lemma C5_rejected_role_aborts_flatten_witness :
  existsb rejectedRole promptWithAssistant = true
  /\ (exists err, convertToLettaMessage promptWithAssistant = Err err)
  /\ (exists e, convertToLettaMessage promptWithAssistant
                = Err (RoleNotSupported e)).
Proof.
  split; [reflexivity |]. split.
  - exact (proj1 (C5_rejected_role_aborts_flatten promptWithAssistant eq_refl)).
  - exact (proj2 (C5_rejected_role_aborts_flatten promptWithAssistant eq_refl)
                 eq_refl).
Defined.

(* ===================================================================== *)
(** ** Tool returns in error *)
(* ===================================================================== *)

Lemma contributions_incl (l : list LettaMessage) (e : LettaMessage)
      (ps qs : list UIPart) :
  contributions l = Ok ps -> In e l -> contribution e = Ok qs -> incl qs ps.
Proof.
  revert ps. induction l as [| a l IH]; intros ps Hps Hin Hq; [destruct Hin |].
  apply contributions_cons_inv in Hps as (xs & ys & Hxs & Hys & ->).
  destruct Hin as [-> | Hin].
  - rewrite Hq in Hxs. injection Hxs as <-. now apply incl_appl, incl_refl.
  - apply incl_appr. now apply (IH ys).
Qed.

(** The parts of an allowed event are among the parts of every UI message
    returned for its id. *)
Lemma convert_keeps_contribution (messages : list LettaMessage)
      (options : option ConvertToAiSdkMessageOptions) (out : list UIMessage)
      (e : LettaMessage) (qs : list UIPart) (m : UIMessage) :
  convertToAiSdkMessage messages options = Ok out ->
  In e messages -> allows (allowSetOf options) e = true ->
  contribution e = Ok qs ->
  In m out -> um_id m = messageId e -> incl qs (um_parts m).
Proof.
  intros H Hin Ha Hq Hm Hid.
  destruct (convert_describes _ _ _ _ H Hm) as (_ & Hparts & _).
  apply (contributions_incl _ e _ _ Hparts); [| exact Hq].
  apply filter_In. split.
  - apply filter_In. now split.
  - unfold idIs. rewrite Hid. apply String.eqb_refl.
Qed.

(** A UI message is returned for every allowed event when ids are plain. *)
Lemma convert_has_message (messages : list LettaMessage)
      (options : option ConvertToAiSdkMessageOptions) (out : list UIMessage)
      (e : LettaMessage) :
  plainIds (allowedMessages options messages) = true ->
  convertToAiSdkMessage messages options = Ok out ->
  In e messages -> allows (allowSetOf options) e = true ->
  exists m, In m out /\ um_id m = messageId e.
Proof.
  intros Hplain H Hin Ha.
  destruct (grouping_of_plain_ids _ _ _ Hplain H) as (_ & Hperm & _).
  assert (Hid : In (messageId e) (map um_id out)).
  { apply (Permutation_in _ (Permutation_sym Hperm)).
    unfold allowedIds. apply firstOccurrences_In, in_map.
    apply filter_In. now split. }
  apply in_map_iff in Hid as (m & Hid & Hm). now exists m.
Qed.

Lemma string_append_assoc (a b c : string) :
  ((a ++ b) ++ c = a ++ (b ++ c))%string.
Proof. induction a as [| x a IH]; simpl; [reflexivity | now rewrite IH]. Qed.

(** C6 (error-state tool part).  A tool-return event with status error
    contributes a tool part in state output-error whose errorText is the
    return value itself when that is a string and its [JSON.stringify] text
    otherwise (a text for every value but [undefined]), and whose output is
    the raw return value; the aggregator puts this part into the UI message
    of the event's id, which exists when ids name no inherited property.
    The [JSON.stringify] text is the one the language defines: [null],
    [true] and [false]; the decimal numeral of a safe integer; a string in
    double quotes with the quote and the backslash escaped, the control
    characters written by their short escape or as four-digit lower-case
    hexadecimal, every other character as it is; an array in brackets, its
    elements separated by commas, [undefined] written [null]; an object in
    braces, each property as its quoted name, a colon and its text,
    properties holding [undefined] left out. *)
Theorem C6_error_tool_return_part :
  (forall id date t,
     tr_status t = StatusError ->
     exists part,
       toolReturnPart id date t = ToolUIPart part
       /\ tp_state part = OutputError
       /\ tp_errorText part
          = match tr_toolReturn t with
            | JStr s => Some s
            | v => Js.stringify v
            end
       /\ tp_output part = tr_toolReturn t
       /\ (tr_toolReturn t <> JUndefined ->
           exists text, tp_errorText part = Some text)
       /\ forall messages options out,
            convertToAiSdkMessage messages options = Ok out ->
            In (ToolReturnMessage id date t) messages ->
            allows (allowSetOf options) (ToolReturnMessage id date t) = true ->
            (forall m, In m out -> um_id m = id ->
                       In (ToolUIPart part) (um_parts m))
            /\ (plainIds (allowedMessages options messages) = true ->
                exists m, In m out /\ um_id m = id))
  /\ (Js.stringify JUndefined = None
      /\ Js.stringify JNull = Some "null"
      /\ Js.stringify (JBool true) = Some "true"
      /\ Js.stringify (JBool false) = Some "false")
  /\ (forall n, exists text,
        Js.stringify (JNum n) = Some text
        /\ NilZero.int_of_string text = Some (Z.to_int (int_value n)))
  /\ (forall s,
        Js.stringify (JStr s)
        = Some (String "034" (Js.escape s ++ String "034" ""))%string)
  /\ (forall items,
        Js.stringify (JArr items)
        = Some ("[" ++ Js.join ","
                  (map (fun x => match Js.stringify x with
                                 | Some text => text
                                 | None => "null"
                                 end) items) ++ "]")%string)
  /\ (forall props,
        Js.stringify (JObj props)
        = Some ("{" ++ Js.join ","
                  (flat_map
                     (fun kv => match Js.stringify (snd kv) with
                                | Some text =>
                                    [(String "034" (Js.escape (fst kv)
                                                    ++ String "034" "")
                                      ++ ":" ++ text)%string]
                                | None => []
                                end) props) ++ "}")%string)
  /\ ((forall sep, Js.join sep [] = "")
      /\ (forall sep x, Js.join sep [x] = x)
      /\ (forall sep x y r,
            Js.join sep (x :: y :: r) = (x ++ sep ++ Js.join sep (y :: r))%string))
  /\ (Js.escape "" = ""
      /\ (forall a b, Js.escape (a ++ b) = (Js.escape a ++ Js.escape b)%string)
      /\ (forall c, 32 <= nat_of_ascii c -> nat_of_ascii c <> 34 ->
                    nat_of_ascii c <> 92 ->
                    Js.escape (String c "") = String c "")
      /\ Js.escape (String "034" "") = String "092" (String "034" "")
      /\ Js.escape (String "092" "") = String "092" (String "092" "")
      /\ map (fun n => Js.escape (String (ascii_of_nat n) "")) (seq 0 32)
         = [ "\u0000"; "\u0001"; "\u0002"; "\u0003";
             "\u0004"; "\u0005"; "\u0006"; "\u0007";
             "\b"; "\t"; "\n"; "\u000b";
             "\f"; "\r"; "\u000e"; "\u000f";
             "\u0010"; "\u0011"; "\u0012"; "\u0013";
             "\u0014"; "\u0015"; "\u0016"; "\u0017";
             "\u0018"; "\u0019"; "\u001a"; "\u001b";
             "\u001c"; "\u001d"; "\u001e"; "\u001f" ]).
Proof.
  split; [| split; [| split; [| split; [| split; [| split; [| split]]]]]].
  - intros id date t Hs. unfold toolReturnPart, toolReturnErrorText. rewrite Hs.
    eexists. split; [reflexivity |]. simpl.
    split; [reflexivity |]. split; [now destruct (tr_toolReturn t) |].
    split; [reflexivity |].
    split.
    { intros Hdef. destruct (tr_toolReturn t) as [| | b | n | s | items | props];
        simpl; eauto; [congruence | destruct b; eauto]. }
    intros messages options out H Hin Ha. split.
    + intros m Hm Hid.
      apply (convert_keeps_contribution _ _ _ _ [toolReturnPart id date t] m
               H Hin Ha eq_refl Hm Hid).
      unfold toolReturnPart, toolReturnErrorText. rewrite Hs. now left.
    + intros Hplain. apply (convert_has_message _ _ _ _ Hplain H Hin Ha).
  - repeat split.
  - intros n. eexists. split; [reflexivity |].
    unfold Js.numberToString. apply NilZero.isi.
    + destruct (int_value n) as [| p | p]; simpl; try discriminate.
      intros [= H]. now apply (DecimalPos.Unsigned.to_uint_nonnil p).
    + destruct (int_value n) as [| p | p]; simpl; try discriminate.
      intros [= H]. now apply (DecimalPos.Unsigned.to_uint_nonnil p).
  - reflexivity.
  - reflexivity.
  - reflexivity.
  - repeat split.
  - split; [reflexivity |]. split; [| split; [| repeat split]].
    + intros a b. induction a as [| c a IH]; simpl; [reflexivity |].
      rewrite IH. now rewrite string_append_assoc.
    + intros c H32 H34 H92. simpl. unfold Js.escapeChar.
      destruct (Nat.eqb_spec (nat_of_ascii c) 34); [contradiction |].
      destruct (Nat.eqb_spec (nat_of_ascii c) 92); [contradiction |].
      destruct (Nat.eqb_spec (nat_of_ascii c) 8); [lia |].
      destruct (Nat.eqb_spec (nat_of_ascii c) 12); [lia |].
      destruct (Nat.eqb_spec (nat_of_ascii c) 10); [lia |].
      destruct (Nat.eqb_spec (nat_of_ascii c) 13); [lia |].
      destruct (Nat.eqb_spec (nat_of_ascii c) 9); [lia |].
      destruct (Nat.ltb_spec (nat_of_ascii c) 32); [lia | reflexivity].
Qed.

Lemma C6_error_tool_return_part_witness :
  tr_status failedReturn = StatusError
  /\ Js.stringify (JObj [("code", JNum seven)])
     = Some ("{" ++ Js.dquote ++ "code" ++ Js.dquote ++ ":7}")%string
  /\ Js.stringify
       (JArr [ JNum minusThree; JUndefined; JNull; JBool false;
               JNum largestSafe; JArr [];
               JObj [("skipped", JUndefined); ("kept", JObj [])];
               JStr (String "034" (String "092" (String "010" "a"))) ])
     = Some ("[-3,null,null,false,9007199254740991,[],{"
             ++ Js.dquote ++ "kept" ++ Js.dquote ++ ":{}},"
             ++ Js.dquote
             ++ Js.backslash ++ Js.dquote
             ++ Js.backslash ++ Js.backslash
             ++ Js.backslash ++ "n" ++ "a"
             ++ Js.dquote ++ "]")%string
  /\ exists part,
       toolReturnPart "message-1" sampleDate failedReturn = ToolUIPart part
       /\ tp_state part = OutputError
       /\ tp_errorText part = Js.stringify (JObj [("code", JNum seven)])
       /\ tp_output part = JObj [("code", JNum seven)].
Proof.
  split; [reflexivity |]. split; [reflexivity |]. split; [reflexivity |].
  destruct (proj1 C6_error_tool_return_part "message-1" sampleDate failedReturn
                  eq_refl)
    as (part & Hpart & Hstate & Htext & Hout & _ & _).
  exists part. repeat split; assumption.
Defined.

(* ===================================================================== *)
(** ** Text through both transforms *)
(* ===================================================================== *)

(** C7 (text-only round trip).  Inbound, a plain string becomes exactly one
    text part holding it; outbound, a text part, whether the UI part just
    built or the prompt object of the same shape, becomes the text fragment
    holding the same text; so the inbound transform followed by the outbound
    transform maps every string to the single text fragment holding it. *)
Theorem C7_text_round_trip (s : string) :
  transformMessageContent (ContentString s) = Ok [TextUIPart (JStr s)]
  /\ transformContentParts [TextUIPart (JStr s)] = Ok [ {| tf_text := JStr s |} ]
  /\ transformContentParts [[("type", JStr "text"); ("text", JStr s)]]
     = Ok [ {| tf_text := JStr s |} ]
  /\ (parts <- transformMessageContent (ContentString s) ;;
      transformContentParts parts)
     = Ok [ {| tf_text := JStr s |} ]
  /\ convertToLettaMessage
       [ {| pm_role := "user";
            pm_content := PromptParts [[("type", JStr "text"); ("text", JStr s)]] |} ]
     = Ok [ {| mc_role := CreateUser;
               mc_content := CreateParts [ {| tf_text := JStr s |} ] |} ].
Proof. repeat split. Qed.

(* ===================================================================== *)
(** ** Allow-list filtering *)
(* ===================================================================== *)

Lemma Object_values_single {A : Type} (k : string) (a : A) :
  Object_values [(k, a)] = [a].
Proof.
  unfold Object_values, ownPropertyOrder. simpl.
  now destruct (isArrayIndex k).
Qed.

Lemma allows_listed (options : option ConvertToAiSdkMessageOptions)
      (e : LettaMessage) :
  allows (allowSetOf options) e = true ->
  ~ disallowedKind options (messageType e).
Proof.
  unfold allows, allowSetOf, disallowedKind. intros Ha.
  destruct options as [[[kinds |]] |]; simpl in *.
  - intros Hno. apply Hno.
    apply existsb_exists in Ha as (t & Ht & Heq).
    destruct (messageType e), t; try discriminate; exact Ht.
  - discriminate.
  - intros [].
Qed.

(** C8 as stated fails when the content of the user event is an array: the
    UI message has one part per fragment that resolves, so two text
    fragments give two text parts, and an empty array gives none. *)
Lemma C8_array_content_counterexample :
  ~ yieldsOneUserText
      [ UserMessage "message-1" sampleDate
                    (ContentArray [helloFragment; worldFragment]);
        ReasoningMessage "message-1" sampleDate sampleReasoning ]
  /\ ~ yieldsOneUserText
         [ UserMessage "message-1" sampleDate (ContentArray []);
           ReasoningMessage "message-1" sampleDate sampleReasoning ].
Proof.
  split; intros (m & t & H & _ & Hparts);
    injection H as <-; discriminate Hparts.
Qed.

(** C8, amended (allow-list filtering).  With the allow-list holding the user
    kind only, a user event and a reasoning event sharing an id (one that
    names no inherited property), in either order, yield exactly one UI
    message, of that id and of role user, whose parts are those of the
    content of the user event and nothing of the reasoning event; the call
    throws when that content does.  The parts are exactly one text part when
    the content is a string.  In general, whatever the options, an id borne
    only by events of kinds that are not on the allow-list is the id of no UI
    message returned. *)
Theorem C8_allow_list_filtering :
  (forall id du dr c r,
     inheritedName id = false ->
     let user := UserMessage id du c in
     let reasoning := ReasoningMessage id dr r in
     let expected :=
       ps <- transformMessageContent c ;;
       Ok [ {| um_role := RoleUser; um_id := id; um_parts := ps |} ] in
     convertToAiSdkMessage [user; reasoning] onlyUserMessages = expected
     /\ convertToAiSdkMessage [reasoning; user] onlyUserMessages = expected)
  /\ (forall id du dr s r,
        inheritedName id = false ->
        let expected :=
          [ {| um_role := RoleUser; um_id := id;
               um_parts := [TextUIPart (JStr s)] |} ] in
        convertToAiSdkMessage
          [UserMessage id du (ContentString s); ReasoningMessage id dr r]
          onlyUserMessages = Ok expected
        /\ convertToAiSdkMessage
             [ReasoningMessage id dr r; UserMessage id du (ContentString s)]
             onlyUserMessages = Ok expected)
  /\ (forall messages options out k,
        convertToAiSdkMessage messages options = Ok out ->
        (forall e, In e messages -> messageId e = k ->
                   disallowedKind options (messageType e)) ->
        forall m, In m out -> um_id m <> k).
Proof.
  assert (Hscenario : forall id du dr c r,
     inheritedName id = false ->
     let expected :=
       ps <- transformMessageContent c ;;
       Ok [ {| um_role := RoleUser; um_id := id; um_parts := ps |} ] in
     convertToAiSdkMessage [UserMessage id du c; ReasoningMessage id dr r]
                           onlyUserMessages = expected
     /\ convertToAiSdkMessage [ReasoningMessage id dr r; UserMessage id du c]
                              onlyUserMessages = expected).
  { intros id du dr c r Hid expected.
    assert (Hstep : processMessage [user_message] emptyStore
                      (UserMessage id du c)
                    = (ps <- transformMessageContent c ;;
                       Ok (withOwn emptyStore
                             [(id, {| um_role := RoleUser; um_id := id;
                                      um_parts := ps |})]))).
    { rewrite processMessage_allowed by reflexivity.
      rewrite slot_plain by (reflexivity || exact Hid). reflexivity. }
    unfold convertToAiSdkMessage, expected.
    change (allowSetOf onlyUserMessages) with [user_message].
    split; cbn [forEach].
    + rewrite Hstep.
      destruct (transformMessageContent c) as [ps | err];
        cbn [bind]; [| reflexivity].
      rewrite processMessage_skipped by reflexivity. cbn [bind withOwn own].
      now rewrite Object_values_single.
    + rewrite processMessage_skipped by reflexivity. cbn [bind].
      rewrite Hstep.
      destruct (transformMessageContent c) as [ps | err];
        cbn [bind]; [| reflexivity].
      cbn [withOwn own]. now rewrite Object_values_single. }
  split; [exact Hscenario |]. split.
  - intros id du dr s r Hid.
    exact (Hscenario id du dr (ContentString s) r Hid).
  - intros messages options out k H Hnone m Hm Hk.
    destruct (convert_describes _ _ _ _ H Hm) as (_ & _ & e & He & _).
    apply lastFor_Some in He as [Hin Hid].
    apply filter_In in Hin as [Hin Ha].
    apply (allows_listed _ _ Ha), Hnone; [exact Hin | congruence].
Qed.

Lemma C8_allow_list_filtering_witness :
  inheritedName "message-1" = false
  /\ convertToAiSdkMessage
       [ UserMessage "message-1" sampleDate
                     (ContentArray [helloFragment; imageWithoutUrl;
                                    worldFragment]);
         ReasoningMessage "message-1" sampleDate sampleReasoning ]
       onlyUserMessages
     = Ok [ {| um_role := RoleUser; um_id := "message-1";
               um_parts := [ TextUIPart (JStr "hello");
                             TextUIPart (JStr "world") ] |} ]
  /\ convertToAiSdkMessage
       [ ReasoningMessage "message-1" sampleDate sampleReasoning;
         UserMessage "message-1" sampleDate (ContentString "hello") ]
       onlyUserMessages
     = Ok [ {| um_role := RoleUser; um_id := "message-1";
               um_parts := [TextUIPart (JStr "hello")] |} ]
  /\ convertToAiSdkMessage
       [ UserMessage "message-1" sampleDate (ContentString "hello");
         ReasoningMessage "message-2" sampleDate sampleReasoning ]
       onlyUserMessages
     = Ok [ {| um_role := RoleUser; um_id := "message-1";
               um_parts := [TextUIPart (JStr "hello")] |} ]
  /\ forall m,
       In m [ {| um_role := RoleUser; um_id := "message-1";
                 um_parts := [TextUIPart (JStr "hello")] |} ] ->
       um_id m <> "message-2".
Proof.
  split; [reflexivity |]. split.
  - exact (proj1 (proj1 C8_allow_list_filtering "message-1" sampleDate
                        sampleDate
                        (ContentArray [helloFragment; imageWithoutUrl;
                                       worldFragment])
                        sampleReasoning eq_refl)).
  - split.
    + exact (proj2 (proj1 (proj2 C8_allow_list_filtering) "message-1"
                          sampleDate sampleDate "hello" sampleReasoning
                          eq_refl)).
    + split; [reflexivity |].
      refine (proj2 (proj2 C8_allow_list_filtering)
                [ UserMessage "message-1" sampleDate (ContentString "hello");
                  ReasoningMessage "message-2" sampleDate sampleReasoning ]
                onlyUserMessages _ "message-2" eq_refl _).
      intros e [<- | [<- | []]] Hid; [discriminate Hid |].
      intros [Hkind | []]. discriminate Hkind.
Defined.

(* ===================================================================== *)
(** ** Fragments whose URL does not resolve *)
(* ===================================================================== *)

Lemma asString_nullish (a b : JsValue) :
  Js.asString a = None -> Js.asString b = None ->
  Js.asString (Js.nullish a b) = None.
Proof. destruct a; simpl; auto. Qed.

Lemma transformFragment_unresolved (val : JsObject) :
  imageUrlUnresolved val \/ inputAudioUnresolved val ->
  transformFragment val = Ok [].
Proof.
  unfold transformFragment. intros [(Ht & Hn & Hv) | (Ht & Hn)]; rewrite Ht; simpl.
  - now rewrite (asString_nullish _ _ Hn Hv).
  - now rewrite (asString_nullish _ JUndefined Hn eq_refl).
Qed.

Lemma flatMapM_drop {A B : Type} (f : A -> Result (list B)) (pre post : list A)
      (x : A) :
  f x = Ok [] -> flatMapM f (pre ++ x :: post) = flatMapM f (pre ++ post).
Proof.
  intros Hx. rewrite !flatMapM_app. simpl. rewrite Hx. simpl.
  destruct (flatMapM f pre) as [xs | e]; simpl; [| reflexivity].
  now destruct (flatMapM f post).
Qed.

(** The loop sees the content of a user or assistant event only through
    [transformMessageContent]. *)
Lemma forEach_same_transform (allow : list MessageType)
      (before after : list LettaMessage) (e e' : LettaMessage) (st : Store) :
  (forall st, processMessage allow st e = processMessage allow st e') ->
  forEach (processMessage allow) (before ++ e :: after) st
  = forEach (processMessage allow) (before ++ e' :: after) st.
Proof.
  intros H. rewrite !forEach_app.
  destruct (forEach (processMessage allow) before st) as [st1 | err];
    cbn [bind forEach]; [now rewrite H | reflexivity].
Qed.

(** C9 (soft failure on malformed optional fields).  An image_url fragment
    whose URL resolves neither from the nested url field nor from the field
    being a string, and an input_audio fragment whose nested url is absent or
    not a string, contribute no part and never make a call throw: wherever
    such a fragment stands in a content array, the transform, and the whole
    conversion of a run holding that array in a user or assistant event, give
    what they give without it, the other fragments converted in order. *)
Theorem C9_unresolved_url_fragment_dropped (val : JsObject) :
  imageUrlUnresolved val \/ inputAudioUnresolved val ->
  transformMessageContent (ContentArray [val]) = Ok []
  /\ (forall pre post,
        transformMessageContent (ContentArray (pre ++ val :: post))
        = transformMessageContent (ContentArray (pre ++ post)))
  /\ (forall before after id date options pre post,
        convertToAiSdkMessage
          (before ++ UserMessage id date (ContentArray (pre ++ val :: post))
                  :: after) options
        = convertToAiSdkMessage
            (before ++ UserMessage id date (ContentArray (pre ++ post))
                    :: after) options
        /\ convertToAiSdkMessage
             (before ++ AssistantMessage id date (ContentArray (pre ++ val :: post))
                     :: after) options
           = convertToAiSdkMessage
               (before ++ AssistantMessage id date (ContentArray (pre ++ post))
                       :: after) options).
Proof.
  intros H. pose proof (transformFragment_unresolved _ H) as Hval.
  assert (Hdrop : forall pre post,
             transformMessageContent (ContentArray (pre ++ val :: post))
             = transformMessageContent (ContentArray (pre ++ post))).
  { intros pre post. simpl. now apply flatMapM_drop. }
  split; [| split].
  - simpl. now rewrite Hval.
  - exact Hdrop.
  - intros before after id date options pre post.
    unfold convertToAiSdkMessage.
    split; (erewrite forEach_same_transform; [reflexivity |]);
      intros st; unfold processMessage, allows; simpl messageType;
      simpl messageId; unfold dispatch; now rewrite Hdrop.
Qed.

Lemma C9_unresolved_url_fragment_dropped_witness :
  (imageUrlUnresolved imageWithoutUrl \/ inputAudioUnresolved imageWithoutUrl)
  /\ transformMessageContent (ContentArray [imageWithoutUrl]) = Ok []
  /\ transformMessageContent
       (ContentArray ([helloFragment] ++ imageWithoutUrl :: [helloFragment]))
     = Ok [TextUIPart (JStr "hello"); TextUIPart (JStr "hello")].
Proof.
  assert (H : imageUrlUnresolved imageWithoutUrl
              \/ inputAudioUnresolved imageWithoutUrl).
  { left. repeat split. }
  split; [exact H |]. split.
  - exact (proj1 (C9_unresolved_url_fragment_dropped imageWithoutUrl H)).
  - rewrite (proj1 (proj2 (C9_unresolved_url_fragment_dropped imageWithoutUrl H))).
    reflexivity.
Defined.

(* ===================================================================== *)
(** ** The default allow-list *)
(* ===================================================================== *)

Lemma forEach_all_skipped (l : list LettaMessage) (st : Store) :
  forEach (processMessage []) l st = Ok st.
Proof.
  induction l as [| e l IH]; cbn [forEach]; [reflexivity |].
  rewrite processMessage_skipped by reflexivity. exact IH.
Qed.

(** C10 (the default allow-list applies only when the options argument is
    omitted).  Called with an options object that has no [allowMessageTypes],
    the converter drops every event and returns the empty list, whatever the
    events; called without options, it lets every event through. *)
Theorem C10_options_without_allow_list_drop_everything
        (messages : list LettaMessage) :
  convertToAiSdkMessage messages (Some {| allowMessageTypes := None |}) = Ok []
  /\ allowedMessages (Some {| allowMessageTypes := None |}) messages = []
  /\ allowedMessages None messages = messages.
Proof.
  split; [| split].
  - unfold convertToAiSdkMessage. simpl allowSetOf.
    now rewrite forEach_all_skipped.
  - unfold allowedMessages. simpl allowSetOf. now apply filter_all_false.
  - unfold allowedMessages. apply filter_all_true.
    intros e _. now destruct e.
Qed.

(* ===================================================================== *)
(** ** The inbound content transform, fragment by fragment *)
(* ===================================================================== *)

Lemma transformFragment_shape (val : JsObject) (ps : list UIPart) :
  transformFragment val = Ok ps ->
  List.length ps <= 1 /\ forallb isTextOrFile ps = true.
Proof.
  unfold transformFragment.
  destruct (Js.strictEqStr (Js.get val "type") "text").
  { intros [= <-]. split; [apply le_n | reflexivity]. }
  destruct (Js.strictEqStr (Js.get val "type") "image_url").
  { destruct (Js.asString _); intros [= <-]; simpl; split; auto. }
  destruct (Js.strictEqStr (Js.get val "type") "input_audio").
  { destruct (Js.asString _); intros [= <-]; simpl; split; auto. }
  discriminate.
Qed.

Lemma flatMapM_shape (fragments : list JsObject) (parts : list UIPart) :
  flatMapM transformFragment fragments = Ok parts ->
  List.length parts <= List.length fragments
  /\ forallb isTextOrFile parts = true.
Proof.
  revert parts. induction fragments as [| val r IH]; simpl; intros parts H.
  - injection H as <-. split; [apply le_n | reflexivity].
  - apply bind_Ok_inv in H as (ps & Hps & H).
    apply bind_Ok_inv in H as (qs & Hqs & [= <-]).
    destruct (transformFragment_shape _ _ Hps) as [Hl Hk].
    destruct (IH _ Hqs) as [Hl' Hk'].
    rewrite length_app, forallb_app, Hk, Hk'. split; [lia | reflexivity].
Qed.

Lemma transformMessageContent_shape (content : MessageContent)
      (parts : list UIPart) :
  transformMessageContent content = Ok parts ->
  forallb isTextOrFile parts = true.
Proof.
  destruct content as [s | fragments]; simpl; intros H.
  - now injection H as <-.
  - now destruct (flatMapM_shape _ _ H).
Qed.

(** X1.  Every content the inbound transform accepts becomes text and file parts
    only: exactly one text part for a string, and for an array at most one
    part per fragment, so never more parts than fragments. *)
Theorem transformMessageContent_parts_bounded
        (content : MessageContent) (parts : list UIPart) :
  transformMessageContent content = Ok parts ->
  forallb isTextOrFile parts = true
  /\ match content with
     | ContentString s => parts = [TextUIPart (JStr s)]
     | ContentArray fragments => List.length parts <= List.length fragments
     end.
Proof.
  destruct content as [s | fragments]; simpl; intros H.
  - injection H as <-. split; reflexivity.
  - destruct (flatMapM_shape _ _ H) as [Hl Hk]. now split.
Qed.

Lemma transformMessageContent_parts_bounded_witness :
  transformMessageContent
    (ContentArray [helloFragment; imageWithoutUrl; helloFragment])
  = Ok [TextUIPart (JStr "hello"); TextUIPart (JStr "hello")]
  /\ forallb isTextOrFile [TextUIPart (JStr "hello"); TextUIPart (JStr "hello")]
     = true
  /\ List.length [TextUIPart (JStr "hello"); TextUIPart (JStr "hello")]
     <= List.length [helloFragment; imageWithoutUrl; helloFragment].
Proof.
  split; [reflexivity |].
  exact (transformMessageContent_parts_bounded
           (ContentArray [helloFragment; imageWithoutUrl; helloFragment])
           [TextUIPart (JStr "hello"); TextUIPart (JStr "hello")] eq_refl).
Defined.

Lemma transformFragment_recognised (val : JsObject) :
  inboundRecognised (Js.get val "type") = true ->
  exists ps, transformFragment val = Ok ps.
Proof.
  unfold inboundRecognised, transformFragment.
  destruct (Js.strictEqStr (Js.get val "type") "text"); [eauto |].
  destruct (Js.strictEqStr (Js.get val "type") "image_url").
  { destruct (Js.asString _); eauto. }
  destruct (Js.strictEqStr (Js.get val "type") "input_audio").
  { destruct (Js.asString _); eauto. }
  discriminate.
Qed.

(** X2.  A content array is accepted exactly when every fragment has one of the
    three recognised types; otherwise the error names the type of the first
    fragment that has not, whatever stands before or after it. *)
Theorem transformMessageContent_first_unrecognised (fragments : list JsObject) :
  match firstUnrecognised fragments with
  | Some val =>
      transformMessageContent (ContentArray fragments)
      = Err (ContentTypeNotSupported (Js.get val "type"))
  | None =>
      exists parts, transformMessageContent (ContentArray fragments) = Ok parts
  end.
Proof.
  unfold firstUnrecognised. simpl.
  induction fragments as [| val r IH]; simpl; [now exists [] |].
  destruct (inboundRecognised (Js.get val "type")) eqn:E; simpl.
  - destruct (transformFragment_recognised _ E) as (ps & ->). simpl.
    destruct (find _ r) as [bad |].
    + now rewrite IH.
    + destruct IH as (parts & ->). simpl. now exists (ps ++ parts).
  - now rewrite (transformFragment_unrecognised _ E).
Qed.

(** X3.  How the URL of a media fragment resolves.  For [image_url], a string in
    the nested [url] field wins, else the [imageUrl] field itself when it is
    a string; for [input_audio], only the nested [url] field counts, so a
    bare string in [inputAudio] gives no part.  A resolved URL gives exactly
    one file part with that URL and the coarse media type. *)
Theorem media_fragment_url_resolution (val : JsObject) :
  (Js.get val "type" = JStr "image_url" ->
   transformFragment val
   = Ok match Js.asString (Js.optUrl (Js.get val "imageUrl")) with
        | Some u => [FileUIPart u "image/*"]
        | None =>
            match Js.asString (Js.get val "imageUrl") with
            | Some u => [FileUIPart u "image/*"]
            | None => []
            end
        end)
  /\ (Js.get val "type" = JStr "input_audio" ->
      transformFragment val
      = Ok match Js.asString (Js.optUrl (Js.get val "inputAudio")) with
           | Some u => [FileUIPart u "audio/*"]
           | None => []
           end).
Proof.
  unfold transformFragment. split; intros ->; simpl.
  - destruct (Js.get val "imageUrl") as [| | b | z | s | items | props];
      try reflexivity.
    simpl. destruct (Js.get props "url"); reflexivity.
  - destruct (Js.get val "inputAudio") as [| | b | z | s | items | props];
      try reflexivity.
    simpl. destruct (Js.get props "url"); reflexivity.
Qed.

Lemma media_fragment_url_resolution_witness :
  let nested := [("type", JStr "image_url");
                 ("imageUrl", JObj [("url", JStr "https://a/b.png")])] in
  let bare := [("type", JStr "image_url"); ("imageUrl", JStr "https://a/c.png")] in
  let audio := [("type", JStr "input_audio"); ("inputAudio", JStr "https://a/d.mp3")] in
  (Js.get nested "type" = JStr "image_url"
   /\ Js.get bare "type" = JStr "image_url"
   /\ Js.get audio "type" = JStr "input_audio")
  /\ transformFragment nested = Ok [FileUIPart "https://a/b.png" "image/*"]
  /\ transformFragment bare = Ok [FileUIPart "https://a/c.png" "image/*"]
  /\ transformFragment audio = Ok [].
Proof.
  intros nested bare audio. split; [repeat split |].
  split; [| split].
  - exact (proj1 (media_fragment_url_resolution nested) eq_refl).
  - exact (proj1 (media_fragment_url_resolution bare) eq_refl).
  - exact (proj2 (media_fragment_url_resolution audio) eq_refl).
Defined.

(* ===================================================================== *)
(** ** The aggregator: ids, allow-list, acceptance *)
(* ===================================================================== *)

Lemma Object_values_ids (t : list (string * UIMessage)) :
  NoDup (map fst t) ->
  (forall k m, lookup k t = Some m -> um_id m = k) ->
  map um_id (Object_values t) = map fst (ownPropertyOrder t).
Proof.
  intros Hnd Hid. unfold Object_values. rewrite map_map. apply map_ext_in.
  intros [k m] Hin. simpl.
  apply (Permutation_in _ (ownPropertyOrder_perm t)) in Hin.
  apply (In_lookup _ _ _ Hnd) in Hin. now apply Hid.
Qed.

(** X4.  No two UI messages returned bear the same id, and every id returned is
    the id of an allowed event. *)
Theorem returned_ids_distinct (messages : list LettaMessage)
        (options : option ConvertToAiSdkMessageOptions) (out : list UIMessage) :
  convertToAiSdkMessage messages options = Ok out ->
  NoDup (map um_id out)
  /\ forall m, In m out -> In (um_id m) (allowedIds options messages).
Proof.
  intros H. split.
  - apply convert_inv in H as (st & Hst & ->).
    apply forEach_invariant in Hst as (Hnd & Hdesc & _).
    rewrite Object_values_ids; [| exact Hnd |].
    + apply (Permutation_NoDup
               (Permutation_sym
                  (Permutation_map fst (ownPropertyOrder_perm (own st))))).
      exact Hnd.
    + intros k m Hk. now destruct (Hdesc _ _ Hk).
  - intros m Hin.
    destruct (convert_describes _ _ _ _ H Hin) as (_ & _ & e & He & _).
    apply lastFor_Some in He as [He Hid].
    unfold allowedIds. apply firstOccurrences_In. rewrite <- Hid.
    now apply in_map.
Qed.

Lemma returned_ids_distinct_witness :
  convertToAiSdkMessage mixedIdsRun None = Ok mixedIdsResult
  /\ NoDup (map um_id mixedIdsResult)
  /\ forall m, In m mixedIdsResult -> In (um_id m) (allowedIds None mixedIdsRun).
Proof.
  split; [reflexivity |].
  exact (returned_ids_distinct mixedIdsRun None mixedIdsResult eq_refl).
Defined.

Lemma forEach_filter (allow : list MessageType) (l : list LettaMessage)
      (st : Store) :
  forEach (processMessage allow) (filter (allows allow) l) st
  = forEach (processMessage allow) l st.
Proof.
  revert st. induction l as [| e l IH]; intros st; simpl; [reflexivity |].
  destruct (allows allow e) eqn:Ha; cbn [forEach].
  - destruct (processMessage allow st e); simpl; [apply IH | reflexivity].
  - rewrite (processMessage_skipped _ _ _ Ha). simpl. apply IH.
Qed.

Lemma allows_sameKinds (a b : list MessageType) (e : LettaMessage) :
  sameKinds a b -> allows a e = allows b e.
Proof.
  intros H. unfold allows.
  assert (Hin : forall l, existsb (MessageType_eqb (messageType e)) l = true
                          <-> In (messageType e) l).
  { intros l. rewrite existsb_exists. split.
    - intros (t & Ht & Heq). destruct (messageType e), t; try discriminate; exact Ht.
    - intros Ht. exists (messageType e). split; [exact Ht |].
      now destruct (messageType e). }
  destruct (existsb _ a) eqn:Ea.
  - symmetry. apply Hin, H, Hin, Ea.
  - destruct (existsb _ b) eqn:Eb; [| reflexivity].
    apply Hin, H, Hin in Eb. congruence.
Qed.

Lemma forEach_sameKinds (a b : list MessageType) (l : list LettaMessage)
      (st : Store) :
  sameKinds a b ->
  forEach (processMessage a) l st = forEach (processMessage b) l st.
Proof.
  intros H. revert st. induction l as [| e l IH]; intros st; [reflexivity |].
  cbn [forEach]. unfold processMessage at 1 3.
  rewrite (allows_sameKinds a b e H).
  destruct (negb (allows b e)); simpl; [apply IH |].
  destruct (dispatch _ e); simpl; [apply IH | reflexivity].
Qed.

(** X5.  The allow-list acts as a set, and only the allowed events count: two
    option objects whose allow-lists hold the same kinds, in whatever order
    and with whatever repetitions, give the same result on every input, and
    removing the events of other kinds from the input changes nothing. *)
Theorem allow_list_is_a_set (messages : list LettaMessage)
        (options options' : option ConvertToAiSdkMessageOptions) :
  sameKinds (allowSetOf options) (allowSetOf options') ->
  convertToAiSdkMessage messages options
  = convertToAiSdkMessage messages options'
  /\ convertToAiSdkMessage (allowedMessages options messages) options'
     = convertToAiSdkMessage messages options.
Proof.
  intros H. unfold convertToAiSdkMessage, allowedMessages. split.
  - now rewrite (forEach_sameKinds _ _ _ _ H).
  - rewrite <- (forEach_sameKinds _ _ _ _ H). now rewrite forEach_filter.
Qed.

Lemma allow_list_is_a_set_witness :
  let once := Some {| allowMessageTypes := Some [user_message; system_message] |} in
  let twice :=
    Some {| allowMessageTypes :=
              Some [system_message; user_message; system_message] |} in
  sameKinds (allowSetOf once) (allowSetOf twice)
  /\ convertToAiSdkMessage mixedIdsRun once
     = convertToAiSdkMessage mixedIdsRun twice
  /\ convertToAiSdkMessage (allowedMessages once mixedIdsRun) twice
     = convertToAiSdkMessage mixedIdsRun once.
Proof.
  intros once twice.
  assert (H : sameKinds (allowSetOf once) (allowSetOf twice)).
  { intros t. simpl. tauto. }
  split; [exact H |].
  exact (allow_list_is_a_set mixedIdsRun once twice H).
Defined.

Lemma contribution_Err_unrecognised (e : LettaMessage) (err : Error) :
  contribution e = Err err -> hasUnrecognisedFragment e = true.
Proof.
  destruct e as [id d c | id d c | id d c | id d r | id d tc | id d t];
    simpl; try discriminate;
    (destruct c as [s | fragments]; simpl; [discriminate |];
     intros H; apply flatMapM_Err_inv in H as (val & Hin & H);
     apply transformFragment_Err_inv in H as [_ H];
     apply existsb_exists; exists val; split; [exact Hin | now rewrite H]).
Qed.

Lemma forEach_plain_Err_event (allow : list MessageType) (l : list LettaMessage)
      (st : Store) (err : Error) :
  protoWritten st = false ->
  plainIds (filter (allows allow) l) = true ->
  forEach (processMessage allow) l st = Err err ->
  exists e, In e l /\ allows allow e = true /\ contribution e = Err err.
Proof.
  revert st. induction l as [| a l IH]; simpl; [discriminate |].
  intros st Hp Hplain H. destruct (allows allow a) eqn:Ha.
  - simpl in Hplain. apply andb_true_iff in Hplain as [Hn Hplain].
    apply negb_true_iff in Hn.
    rewrite (processMessage_allowed _ _ _ Ha), (slot_plain _ _ Hp Hn) in H.
    destruct (contribution a) as [ps | e0] eqn:Ec.
    + assert (Hrest : exists e, In e l /\ allows allow e = true
                                /\ contribution e = Err err).
      { destruct (lookup (messageId a) (own st)); simpl in H;
          refine (IH _ _ Hplain H); exact Hp. }
      destruct Hrest as (e & Hin & He). exists e. split; [now right | exact He].
    + exists a. split; [now left |]. split; [exact Ha |].
      destruct (lookup (messageId a) (own st)); simpl in H; congruence.
  - rewrite (processMessage_skipped _ _ _ Ha) in H. simpl in H.
    destruct (IH st Hp Hplain H) as (e & Hin & He).
    exists e. split; [now right | exact He].
Qed.

(** X6.  When no allowed id names an inherited property, the aggregator returns
    UI messages exactly when no allowed event carries an unrecognised
    fragment; in particular it never throws on inputs whose user and
    assistant contents are strings or recognised fragments. *)
Theorem aggregator_accepts_iff_recognised (messages : list LettaMessage)
        (options : option ConvertToAiSdkMessageOptions) :
  plainIds (allowedMessages options messages) = true ->
  (exists out, convertToAiSdkMessage messages options = Ok out)
  <-> existsb (fun e => allows (allowSetOf options) e && hasUnrecognisedFragment e)
              messages = false.
Proof.
  intros Hplain. split.
  - intros (out & H). apply not_true_is_false. intros Hbad.
    apply existsb_exists in Hbad as (e & Hin & Hbad).
    apply andb_true_iff in Hbad as [Ha Hu].
    destruct (contribution_unrecognised _ Hu) as (err & Herr).
    destruct (forEach_throws _ _ emptyStore _ _ Hin Ha Herr) as (err' & Hthrow).
    unfold convertToAiSdkMessage in H. rewrite Hthrow in H. discriminate H.
  - intros Hgood.
    destruct (convertToAiSdkMessage messages options) as [out | err] eqn:E;
      [now exists out |].
    exfalso. unfold convertToAiSdkMessage in E.
    destruct (forEach _ messages emptyStore) as [st | err'] eqn:Est;
      [discriminate E |].
    destruct (forEach_plain_Err_event _ _ emptyStore _ eq_refl Hplain Est)
      as (e & Hin & Ha & Herr).
    apply contribution_Err_unrecognised in Herr.
    assert (Hbad : existsb (fun e => allows (allowSetOf options) e
                                     && hasUnrecognisedFragment e) messages
                   = true).
    { apply existsb_exists. exists e. split; [exact Hin |]. now rewrite Ha, Herr. }
    congruence.
Qed.

Lemma aggregator_accepts_iff_recognised_witness :
  plainIds (allowedMessages None mixedIdsRun) = true
  /\ ((exists out, convertToAiSdkMessage mixedIdsRun None = Ok out)
      <-> existsb (fun e => allows (allowSetOf None) e && hasUnrecognisedFragment e)
                  mixedIdsRun = false).
Proof.
  split; [reflexivity |].
  exact (aggregator_accepts_iff_recognised mixedIdsRun None eq_refl).
Defined.

(* ===================================================================== *)
(** ** The aggregator: more events, other events *)
(* ===================================================================== *)

Lemma processMessage_keeps_keys (allow : list MessageType) (st st' : Store)
      (e : LettaMessage) (k : string) :
  processMessage allow st e = Ok st' ->
  lookup k (own st) <> None -> lookup k (own st') <> None.
Proof.
  intros H Hk. destruct (allows allow e) eqn:Ha.
  - rewrite (processMessage_allowed _ _ _ Ha) in H.
    destruct (slot st (messageId e)) eqn:Hs;
      try (apply bind_Ok_inv in H as (ps & _ & [= <-])); try discriminate H.
    + simpl. destruct (String.eqb_spec k (messageId e)) as [-> | Hne].
      * rewrite lookup_modify_same. destruct (lookup (messageId e) (own st));
          [discriminate | congruence].
      * now rewrite lookup_modify_other.
    + unfold writeForeign. now destruct (String.eqb _ _).
    + simpl. rewrite lookup_snoc. destruct (lookup k (own st));
        [discriminate | congruence].
  - rewrite (processMessage_skipped _ _ _ Ha) in H. now injection H as <-.
Qed.

Lemma forEach_keeps_keys (allow : list MessageType) (l : list LettaMessage)
      (st st' : Store) (k : string) :
  forEach (processMessage allow) l st = Ok st' ->
  lookup k (own st) <> None -> lookup k (own st') <> None.
Proof.
  revert st. induction l as [| e l IH]; intros st H Hk; cbn [forEach] in H.
  - now injection H as <-.
  - apply bind_Ok_inv in H as (st1 & H1 & H).
    apply (IH st1 H). now apply (processMessage_keeps_keys allow st st1 e).
Qed.

Lemma In_Object_values_lookup (t : list (string * UIMessage)) (k : string)
      (m : UIMessage) :
  lookup k t = Some m -> In m (Object_values t).
Proof. intros H. apply In_Object_values. exists k. now apply lookup_In. Qed.

(** X7.  Events that arrive later only add: when a run and its extension by
    further events both succeed, every UI message of the shorter run has a
    UI message of the same id in the longer one, whose parts start with the
    parts it had. *)
Theorem later_events_only_append (messages more : list LettaMessage)
        (options : option ConvertToAiSdkMessageOptions)
        (out out' : list UIMessage) :
  convertToAiSdkMessage messages options = Ok out ->
  convertToAiSdkMessage (messages ++ more) options = Ok out' ->
  forall m, In m out ->
    exists m' added,
      In m' out' /\ um_id m' = um_id m /\ um_parts m' = um_parts m ++ added.
Proof.
  intros H H' m Hin.
  destruct (convert_describes _ _ _ _ H Hin) as (_ & Hparts & _).
  apply convert_inv in H as (st & Hst & ->).
  apply convert_inv in H' as (st' & Hst' & ->).
  rewrite forEach_app, Hst in Hst'. cbn [bind] in Hst'.
  pose proof (forEach_invariant _ _ _ Hst) as (Hnd & Hdesc & _).
  apply In_Object_values in Hin as (k & Hin).
  apply (In_lookup _ _ _ Hnd) in Hin.
  destruct (Hdesc _ _ Hin) as (Hid & _).
  assert (Hk : lookup k (own st') <> None).
  { apply (forEach_keeps_keys _ _ _ _ _ Hst'). congruence. }
  destruct (lookup k (own st')) as [m' |] eqn:Hm'; [| congruence].
  assert (Hall : forEach (processMessage (allowSetOf options))
                         (messages ++ more) emptyStore = Ok st').
  { now rewrite forEach_app, Hst. }
  apply forEach_invariant in Hall as (_ & Hdesc' & _).
  destruct (Hdesc' _ _ Hm') as (Hid' & Hparts' & _).
  rewrite filter_app, filter_app in Hparts'.
  apply contributions_app_inv in Hparts' as (xs & added & Hxs & _ & Heq).
  rewrite Hid in Hparts. unfold allowedMessages in Hparts.
  rewrite Hparts in Hxs. injection Hxs as <-.
  exists m', added. split; [now apply (In_Object_values_lookup _ k) |].
  split; [congruence | exact Heq].
Qed.

Lemma later_events_only_append_witness :
  (convertToAiSdkMessage userAlone None = Ok userAloneResult
   /\ convertToAiSdkMessage (userAlone ++ laterToolReturn) None
      = Ok userThenToolReturnResult)
  /\ forall m, In m userAloneResult ->
       exists m' added,
         In m' userThenToolReturnResult
         /\ um_id m' = um_id m /\ um_parts m' = um_parts m ++ added.
Proof.
  split; [split; reflexivity |].
  exact (later_events_only_append userAlone laterToolReturn None
           userAloneResult userThenToolReturnResult eq_refl eq_refl).
Defined.

Lemma lastFor_filter (k : string) (l : list LettaMessage) :
  lastFor k (filter (idIs k) l) = lastFor k l.
Proof.
  induction l as [| e l IH]; simpl; [reflexivity |].
  destruct (idIs k e) eqn:E; simpl; rewrite IH; [now rewrite E | ].
  now destruct (lastFor k l).
Qed.

Lemma filter_idIs_idem (k : string) (l : list LettaMessage) :
  filter (idIs k) (filter (idIs k) l) = filter (idIs k) l.
Proof.
  induction l as [| e l IH]; simpl; [reflexivity |].
  destruct (idIs k e) eqn:E; simpl; [now rewrite E, IH | exact IH].
Qed.

Lemma UIMessage_eq (a b : UIMessage) :
  um_id a = um_id b -> um_role a = um_role b -> um_parts a = um_parts b -> a = b.
Proof. destruct a, b. simpl. now intros -> -> ->. Qed.

(** X8.  The UI message of an id is decided by the allowed events bearing that id
    alone: two successful runs, whatever else they hold and in whatever
    order, whose allowed events of an id are the same sequence return the
    same UI message for it. *)
Theorem message_decided_by_its_events
        (messages messages' : list LettaMessage)
        (options options' : option ConvertToAiSdkMessageOptions)
        (out out' : list UIMessage) (m m' : UIMessage) :
  convertToAiSdkMessage messages options = Ok out ->
  convertToAiSdkMessage messages' options' = Ok out' ->
  In m out -> In m' out' -> um_id m = um_id m' ->
  filter (idIs (um_id m)) (allowedMessages options messages)
  = filter (idIs (um_id m)) (allowedMessages options' messages') ->
  m = m'.
Proof.
  intros H H' Hin Hin' Hid Hsame.
  destruct (convert_describes _ _ _ _ H Hin) as (_ & Hp & e & He & Hr).
  destruct (convert_describes _ _ _ _ H' Hin') as (_ & Hp' & e' & He' & Hr').
  rewrite <- Hid in Hp', He'.
  rewrite <- lastFor_filter in He, He'. rewrite Hsame in He, Hp.
  apply UIMessage_eq; [exact Hid | | congruence].
  rewrite He in He'. injection He' as <-. congruence.
Qed.

Lemma message_decided_by_its_events_witness :
  (convertToAiSdkMessage mixedIdsRun None = Ok mixedIdsResult
   /\ convertToAiSdkMessage reorderedRun None = Ok reorderedResult
   /\ In messageOfB mixedIdsResult
   /\ In messageOfB reorderedResult
   /\ filter (idIs (um_id messageOfB)) (allowedMessages None mixedIdsRun)
      = filter (idIs (um_id messageOfB)) (allowedMessages None reorderedRun))
  /\ messageOfB = messageOfB.
Proof.
  assert (Hin : In messageOfB mixedIdsResult) by (simpl; auto).
  assert (Hin' : In messageOfB reorderedResult) by (simpl; auto).
  split; [repeat split; assumption |].
  exact (message_decided_by_its_events mixedIdsRun reorderedRun None None
           mixedIdsResult reorderedResult messageOfB messageOfB
           eq_refl eq_refl Hin Hin' eq_refl eq_refl).
Defined.

Lemma firstOccurrences_of_distinct (l : list string) :
  NoDup l -> firstOccurrences l = l.
Proof.
  induction l as [| k r IH]; simpl; intros H; [reflexivity |].
  inversion H as [| ? ? Hk Hr]; subst. rewrite (IH Hr). f_equal.
  apply filter_all_true. intros x Hx. apply negb_true_iff, String.eqb_neq.
  intros ->. contradiction.
Qed.

Lemma filter_idIs_single (l : list LettaMessage) (e : LettaMessage) :
  NoDup (map messageId l) -> In e l -> filter (idIs (messageId e)) l = [e].
Proof.
  induction l as [| a l IH]; simpl; intros Hnd Hin; [destruct Hin |].
  inversion Hnd as [| ? ? Ha Hl]; subst. unfold idIs at 1.
  destruct Hin as [-> | Hin].
  - rewrite String.eqb_refl. f_equal. now apply filter_idIs_nil.
  - destruct (String.eqb_spec (messageId a) (messageId e)) as [Heq | _].
    + exfalso. apply Ha. rewrite Heq. now apply in_map.
    + now apply IH.
Qed.

Lemma Forall2_of_maps {A B K : Type} (f : A -> K) (g : B -> K)
      (R : A -> B -> Prop) (l1 : list A) (l2 : list B) :
  map f l1 = map g l2 ->
  (forall a b, In a l1 -> In b l2 -> f a = g b -> R a b) ->
  Forall2 R l1 l2.
Proof.
  revert l2. induction l1 as [| a l1 IH]; intros [| b l2]; simpl;
    try discriminate; intros Heq HR; [constructor |].
  injection Heq as Hab Heq. constructor.
  - apply HR; auto.
  - apply IH; [exact Heq |]. intros x y Hx Hy. apply HR; auto.
Qed.

(** X9.  When the allowed events bear pairwise distinct ids, none a numeral and
    none naming an inherited property, the aggregator converts event by
    event: the result lists, in input order, one UI message per allowed
    event, with the event's id, the role of its kind and its parts. *)
Theorem distinct_ids_convert_pointwise (messages : list LettaMessage)
        (options : option ConvertToAiSdkMessageOptions) (out : list UIMessage) :
  plainIds (allowedMessages options messages) = true ->
  NoDup (map messageId (allowedMessages options messages)) ->
  forallb (fun e => negb (isArrayIndex (messageId e)))
          (allowedMessages options messages) = true ->
  convertToAiSdkMessage messages options = Ok out ->
  Forall2 converts (allowedMessages options messages) out.
Proof.
  intros Hplain Hnd Hnum H.
  destruct (convert_ids _ _ _ Hplain H) as (idx & Hids & Hperm & _).
  unfold allowedIds in Hids, Hperm.
  rewrite (firstOccurrences_of_distinct _ Hnd) in Hids, Hperm.
  assert (Hnone : forall k, In k (map messageId (allowedMessages options messages))
                            -> isArrayIndex k = false).
  { intros k Hk. apply in_map_iff in Hk as (e & <- & He).
    rewrite forallb_forall in Hnum. now apply negb_true_iff, Hnum. }
  rewrite (filter_all_false isArrayIndex _ Hnone) in Hperm.
  apply Permutation_sym, Permutation_nil in Hperm. subst idx. simpl in Hids.
  rewrite (filter_all_true (fun k => negb (isArrayIndex k))) in Hids
    by (intros k Hk; now rewrite (Hnone k Hk)).
  apply (Forall2_of_maps messageId um_id); [now symmetry |].
  intros e m He Hm Hid.
  destruct (convert_describes _ _ _ _ H Hm) as (_ & Hparts & e' & He' & Hrole).
  rewrite <- Hid in Hparts, He'.
  rewrite (filter_idIs_single _ _ Hnd He) in Hparts.
  rewrite <- lastFor_filter, (filter_idIs_single _ _ Hnd He) in He'.
  simpl in He'. unfold idIs in He'. rewrite String.eqb_refl in He'.
  injection He' as <-.
  unfold contributions in Hparts. simpl in Hparts. unfold converts.
  destruct (contribution e) as [ps |]; simpl in Hparts; [| discriminate].
  rewrite app_nil_r in Hparts.
  split; [now symmetry |]. split; [exact Hrole | exact Hparts].
Qed.

Lemma distinct_ids_convert_pointwise_witness :
  (plainIds (allowedMessages None separateIdsRun) = true
   /\ NoDup (map messageId (allowedMessages None separateIdsRun))
   /\ forallb (fun e => negb (isArrayIndex (messageId e)))
              (allowedMessages None separateIdsRun) = true
   /\ convertToAiSdkMessage separateIdsRun None = Ok separateIdsResult)
  /\ Forall2 converts (allowedMessages None separateIdsRun) separateIdsResult.
Proof.
  assert (Hnd : NoDup (map messageId (allowedMessages None separateIdsRun))).
  { simpl. repeat constructor; simpl; intuition discriminate. }
  split; [repeat split; try reflexivity; exact Hnd |].
  exact (distinct_ids_convert_pointwise separateIdsRun None separateIdsResult
           eq_refl Hnd eq_refl eq_refl).
Defined.

(* ===================================================================== *)
(** ** UI messages handed back to the outbound transform *)
(* ===================================================================== *)

Lemma tool_tag_is_not_text (t : string) :
  String.prefix "tool-" t = true -> String.eqb t "text" = false.
Proof.
  intros H. apply String.eqb_neq. intros ->. discriminate H.
Qed.

Lemma transformContentPart_resubmittable (p : UIPart) :
  wellTagged p = true -> resubmittable p = true ->
  transformContentPart p = Ok (textFragments [p]).
Proof.
  destruct p as [text | url mt | text md | t]; simpl; try discriminate.
  - reflexivity.
  - intros Ht _. unfold transformContentPart. simpl.
    now rewrite (tool_tag_is_not_text _ Ht), Ht.
Qed.

Lemma transformContentPart_not_resubmittable (p : UIPart) :
  resubmittable p = false ->
  exists tag, (tag = "file" \/ tag = "reasoning")
              /\ transformContentPart p = Err (ContentTypeNotSupported (JStr tag)).
Proof.
  destruct p as [text | url mt | text md | t]; simpl; try discriminate; intros _.
  - exists "file". split; [now left | reflexivity].
  - exists "reasoning". split; [now right | reflexivity].
Qed.

Lemma textFragments_app (a b : list UIPart) :
  textFragments (a ++ b) = textFragments a ++ textFragments b.
Proof. unfold textFragments. apply flat_map_app. Qed.

Lemma transformContentParts_UIParts (parts : list UIPart) :
  forallb wellTagged parts = true ->
  (forallb resubmittable parts = true ->
   transformContentParts parts = Ok (textFragments parts))
  /\ (forallb resubmittable parts = false ->
      exists tag, (tag = "file" \/ tag = "reasoning")
                  /\ transformContentParts parts
                     = Err (ContentTypeNotSupported (JStr tag))).
Proof.
  unfold transformContentParts.
  induction parts as [| p r IH]; simpl; intros Hw.
  - split; [reflexivity | discriminate].
  - apply andb_true_iff in Hw as [Hp Hr]. destruct (IH Hr) as [IHok IHerr].
    destruct (resubmittable p) eqn:Ep; simpl.
    + rewrite (transformContentPart_resubmittable _ Hp Ep). simpl. split.
      * intros Hall. rewrite (IHok Hall). cbn [bind].
        now rewrite app_nil_r.
      * intros Hall. destruct (IHerr Hall) as (tag & Htag & ->).
        now exists tag.
    + split; [discriminate |]. intros _.
      destruct (transformContentPart_not_resubmittable _ Ep) as (tag & Htag & ->).
      now exists tag.
Qed.

Lemma tool_tag_prefix (toolName : string) :
  String.prefix "tool-" ("tool-" ++ toolName) = true.
Proof. simpl. now destruct toolName. Qed.

Lemma contribution_wellTagged (e : LettaMessage) (ps : list UIPart) :
  contribution e = Ok ps -> forallb wellTagged ps = true.
Proof.
  assert (Hcontent : forall c, transformMessageContent c = Ok ps ->
                               forallb wellTagged ps = true).
  { intros c H. apply transformMessageContent_shape in H.
    apply forallb_forall. intros p Hp.
    rewrite forallb_forall in H. specialize (H p Hp). now destruct p. }
  destruct e as [id d c | id d c | id d c | id d r | id d tc | id d t];
    cbn [contribution]; try apply Hcontent; intros [= <-];
    try reflexivity;
    unfold toolCallPart, toolReturnPart;
    cbn [forallb wellTagged tp_type]; now rewrite tool_tag_prefix.
Qed.

Lemma contributions_wellTagged (l : list LettaMessage) (ps : list UIPart) :
  contributions l = Ok ps -> forallb wellTagged ps = true.
Proof.
  revert ps. induction l as [| e l IH]; intros ps H.
  - injection H as <-. reflexivity.
  - apply contributions_cons_inv in H as (xs & ys & Hxs & Hys & ->).
    rewrite forallb_app, (contribution_wellTagged _ _ Hxs), (IH _ Hys).
    reflexivity.
Qed.

(** X10.  Handing the parts of a returned UI message to the outbound transform:
    text parts come back as text fragments with the same text, in order;
    tool parts, calls and returns alike, are skipped without error; a file
    or reasoning part makes the transform throw the unsupported-content-type
    error naming [file] or [reasoning]. *)
Theorem returned_parts_through_outbound_transform
        (messages : list LettaMessage)
        (options : option ConvertToAiSdkMessageOptions) (out : list UIMessage)
        (m : UIMessage) :
  convertToAiSdkMessage messages options = Ok out -> In m out ->
  (forallb resubmittable (um_parts m) = true ->
   transformContentParts (um_parts m) = Ok (textFragments (um_parts m)))
  /\ (forallb resubmittable (um_parts m) = false ->
      exists tag, (tag = "file" \/ tag = "reasoning")
                  /\ transformContentParts (um_parts m)
                     = Err (ContentTypeNotSupported (JStr tag))).
Proof.
  intros H Hin.
  destruct (convert_describes _ _ _ _ H Hin) as (_ & Hparts & _).
  apply transformContentParts_UIParts.
  now apply (contributions_wellTagged _ _ Hparts).
Qed.

Lemma returned_parts_through_outbound_transform_witness :
  (convertToAiSdkMessage userThenToolReturn None = Ok userThenToolReturnResult
   /\ In toolTurn userThenToolReturnResult
   /\ forallb resubmittable (um_parts toolTurn) = true)
  /\ transformContentParts (um_parts toolTurn)
     = Ok [ {| tf_text := JStr "run it" |} ].
Proof.
  assert (Hin : In toolTurn userThenToolReturnResult) by (simpl; auto).
  split; [repeat split; (reflexivity || exact Hin) |].
  exact (proj1 (returned_parts_through_outbound_transform
                  userThenToolReturn None userThenToolReturnResult toolTurn
                  eq_refl Hin) eq_refl).
Defined.

(* ===================================================================== *)
(** ** The flattener: what it accepts and what it returns *)
(* ===================================================================== *)

Lemma flatMapM_Ok_inv {A B : Type} (f : A -> Result (list B)) (l : list A)
      (zs : list B) :
  flatMapM f l = Ok zs -> forall x, In x l -> exists ys, f x = Ok ys.
Proof.
  revert zs. induction l as [| a l IH]; simpl; intros zs H x Hx; [destruct Hx |].
  apply bind_Ok_inv in H as (ys & Hys & H).
  apply bind_Ok_inv in H as (ws & Hws & _).
  destruct Hx as [<- | Hx]; [now exists ys | now apply (IH ws)].
Qed.

Lemma mapM_Ok {A B : Type} (f : A -> Result B) (l : list A) :
  (forall x, In x l -> exists y, f x = Ok y) -> exists ys, mapM f l = Ok ys.
Proof.
  induction l as [| a l IH]; simpl; intros H; [now exists [] |].
  destruct (H a (or_introl eq_refl)) as (y & ->).
  destruct IH as (ys & ->); [intros x Hx; apply H; now right |].
  simpl. now exists (y :: ys).
Qed.

Lemma mapM_Forall2 {A B : Type} (f : A -> Result B) (l : list A) (ys : list B) :
  mapM f l = Ok ys -> Forall2 (fun x y => f x = Ok y) l ys.
Proof.
  revert ys. induction l as [| a l IH]; simpl; intros ys H.
  - injection H as <-. constructor.
  - apply bind_Ok_inv in H as (y & Hy & H).
    apply bind_Ok_inv in H as (zs & Hzs & [= <-]).
    constructor; [exact Hy | now apply IH].
Qed.

Lemma Forall2_In_left {A B : Type} (R : A -> B -> Prop) (l1 : list A)
      (l2 : list B) (a : A) :
  Forall2 R l1 l2 -> In a l1 -> exists b, In b l2 /\ R a b.
Proof.
  induction 1 as [| x y l1 l2 Hxy _ IH]; simpl; [tauto |].
  intros [<- | Hin].
  - exists y. split; [now left | exact Hxy].
  - destruct (IH Hin) as (b & Hb & Hab). exists b. split; [now right | exact Hab].
Qed.

Lemma mapM_app {A B : Type} (f : A -> Result B) (l1 l2 : list A) :
  mapM f (l1 ++ l2)
  = (xs <- mapM f l1 ;; ys <- mapM f l2 ;; Ok (xs ++ ys)).
Proof.
  induction l1 as [| a l1 IH]; simpl.
  - now destruct (mapM f l2).
  - destruct (f a) as [y | e]; simpl; [| reflexivity].
    rewrite IH. destruct (mapM f l1) as [xs | e]; simpl; [| reflexivity].
    now destruct (mapM f l2).
Qed.

Lemma transformContentParts_Ok_recognised (parts : list JsObject)
      (content : list TextFragment) :
  transformContentParts parts = Ok content ->
  forallb (fun part : JsObject => outboundRecognised (partType part)) parts = true.
Proof.
  intros H. apply forallb_forall. intros part Hin.
  destruct (flatMapM_Ok_inv _ _ _ H part Hin) as (ys & Hys).
  destruct (outboundRecognised (partType part)) eqn:E; [reflexivity |].
  rewrite (transformContentPart_unrecognised _ E) in Hys. discriminate Hys.
Qed.

Lemma convertPromptMessage_Ok_valid (m : PromptMessage) (c : MessageCreate) :
  convertPromptMessage m = Ok c -> validMessage m = true.
Proof.
  unfold convertPromptMessage, validMessage.
  destruct (String.eqb (pm_role m) "user").
  - destruct (pm_content m) as [s | parts | v]; try discriminate.
    intros H. apply bind_Ok_inv in H as (content & H & _).
    now apply (transformContentParts_Ok_recognised _ content).
  - destruct (String.eqb (pm_role m) "assistant"); [discriminate |].
    destruct (String.eqb (pm_role m) "tool"); [discriminate |].
    destruct (String.eqb (pm_role m) "system"); [| discriminate].
    destruct (pm_content m) as [s | parts | v]; try reflexivity.
    intros H. apply bind_Ok_inv in H as (content & H & _).
    now apply (transformContentParts_Ok_recognised _ content).
Qed.

(** X11.  The flattener returns a payload exactly for the prompts whose messages
    are all valid: user messages with an array of text and tool parts, and
    system messages with a string, such an array, or a value that is neither
    a string nor an array. *)
Theorem flattener_accepts_iff_valid (prompt : list PromptMessage) :
  (exists out, convertToLettaMessage prompt = Ok out)
  <-> forallb validMessage prompt = true.
Proof.
  unfold convertToLettaMessage. split.
  - intros (out & H). apply forallb_forall. intros m Hin.
    apply mapM_Forall2 in H.
    destruct (Forall2_In_left _ _ _ _ H Hin) as (c & _ & Hc).
    now apply (convertPromptMessage_Ok_valid m c).
  - intros H. apply mapM_Ok. intros m Hin.
    apply validMessage_converts. rewrite forallb_forall in H. now apply H.
Qed.

Lemma convertPromptMessage_answers (m : PromptMessage) (c : MessageCreate) :
  convertPromptMessage m = Ok c -> answers m c.
Proof.
  unfold convertPromptMessage, answers.
  destruct (String.eqb_spec (pm_role m) "user") as [Hu | Hu].
  - destruct (pm_content m) as [s | parts | v]; try discriminate.
    intros H. apply bind_Ok_inv in H as (content & _ & [= <-]).
    left. simpl. repeat split; [exact Hu | now exists content].
  - destruct (String.eqb (pm_role m) "assistant"); [discriminate |].
    destruct (String.eqb (pm_role m) "tool"); [discriminate |].
    destruct (String.eqb_spec (pm_role m) "system") as [Hs | Hs];
      [| discriminate].
    destruct (pm_content m) as [s | parts | v]; intros H;
      try (apply bind_Ok_inv in H as (content & _ & H));
      injection H as <-; right; now split.
Qed.

(** X12.  A payload the flattener returns answers the prompt message by message:
    as many outbound messages as prompt messages, in the same order, each
    with the role of its prompt message, a user message always carrying an
    array of text fragments. *)
Theorem flattener_answers_message_by_message
        (prompt : list PromptMessage) (out : list MessageCreate) :
  convertToLettaMessage prompt = Ok out ->
  List.length out = List.length prompt /\ Forall2 answers prompt out.
Proof.
  unfold convertToLettaMessage. intros H. apply mapM_Forall2 in H. split.
  - symmetry. now apply (Forall2_length H).
  - eapply Forall2_impl; [| exact H]. apply convertPromptMessage_answers.
Qed.

Lemma flattener_answers_message_by_message_witness :
  convertToLettaMessage acceptedPrompt = Ok acceptedPromptResult
  /\ List.length acceptedPromptResult = List.length acceptedPrompt
  /\ Forall2 answers acceptedPrompt acceptedPromptResult.
Proof.
  split; [reflexivity |].
  exact (flattener_answers_message_by_message acceptedPrompt
           acceptedPromptResult eq_refl).
Defined.

(** X13.  Flattening a prompt made of two pieces flattens each piece and joins the
    payloads; the first piece that throws decides the error, and nothing of
    the other piece is returned. *)
Theorem flattener_of_joined_prompts (prompt prompt' : list PromptMessage) :
  convertToLettaMessage (prompt ++ prompt')
  = (out <- convertToLettaMessage prompt ;;
     out' <- convertToLettaMessage prompt' ;;
     Ok (out ++ out')).
Proof. apply mapM_app. Qed.

Lemma transformContentPart_object (part : JsObject) :
  outboundRecognised (partType part) = true ->
  transformContentPart part
  = Ok (if isTextObject part then [ {| tf_text := Js.get part "text" |} ] else []).
Proof.
  unfold outboundRecognised, transformContentPart, isTextObject,
    Js.strictEqStr, Js.asString. simpl.
  destruct (Js.get part "type") as [| | b | z | t | items | props];
    try discriminate.
  destruct (String.eqb t "text"); simpl; [reflexivity |]. now intros ->.
Qed.

(** X14.  Of parts that are all text or tool parts, the outbound transform keeps
    the text parts only, in order, each as the fragment holding its text;
    the tool parts leave no trace, so the content has as many fragments as
    there were text parts. *)
Theorem outbound_transform_keeps_text_only (parts : list JsObject) :
  forallb (fun part : JsObject => outboundRecognised (partType part)) parts = true ->
  transformContentParts parts
  = Ok (map (fun part => {| tf_text := Js.get part "text" |})
            (filter isTextObject parts)).
Proof.
  unfold transformContentParts.
  induction parts as [| part r IH]; simpl; intros H; [reflexivity |].
  apply andb_true_iff in H as [Hp Hr].
  rewrite (transformContentPart_object _ Hp), (IH Hr). simpl.
  now destruct (isTextObject part).
Qed.

Lemma outbound_transform_keeps_text_only_witness :
  let parts := [ [("type", JStr "text"); ("text", JStr "hi")];
                 [("type", JStr "tool-search"); ("state", JStr "done")];
                 [("type", JStr "text"); ("text", JStr "there")] ] in
  forallb (fun part : JsObject => outboundRecognised (partType part)) parts = true
  /\ transformContentParts parts
     = Ok [ {| tf_text := JStr "hi" |}; {| tf_text := JStr "there" |} ].
Proof.
  intros parts. split; [reflexivity |].
  exact (outbound_transform_keeps_text_only parts eq_refl).
Defined.

Lemma transformContentParts_fragments (fragments : list TextFragment) :
  transformContentParts (map fragmentObject fragments) = Ok fragments.
Proof.
  unfold transformContentParts.
  induction fragments as [| [text] r IH]; simpl; [reflexivity |].
  now rewrite IH.
Qed.

Lemma convertPromptMessage_again (m : PromptMessage) (c : MessageCreate) :
  convertPromptMessage m = Ok c ->
  convertPromptMessage (asPromptMessage c) = Ok c.
Proof.
  intros H. destruct (convertPromptMessage_answers _ _ H) as
      [(_ & Hrole & parts & Hcontent) | (_ & Hrole)];
    destruct c as [role content]; simpl in *; subst role.
  - subst content. unfold convertPromptMessage, asPromptMessage. simpl.
    now rewrite transformContentParts_fragments.
  - unfold convertPromptMessage, asPromptMessage. simpl.
    destruct content as [s | parts | v]; try reflexivity.
    now rewrite transformContentParts_fragments.
Qed.

Lemma mapM_retraction {A B : Type} (f : A -> Result B) (g : B -> A)
      (ys : list B) :
  (forall y, In y ys -> f (g y) = Ok y) -> mapM f (map g ys) = Ok ys.
Proof.
  induction ys as [| y ys IH]; simpl; intros H; [reflexivity |].
  rewrite (H y (or_introl eq_refl)). simpl.
  rewrite IH; [reflexivity |]. intros z Hz. apply H. now right.
Qed.

(** X15.  A payload the flattener returned is a prompt it accepts and leaves
    unchanged: flattening is idempotent. *)
Theorem flattener_idempotent (prompt : list PromptMessage)
        (out : list MessageCreate) :
  convertToLettaMessage prompt = Ok out ->
  convertToLettaMessage (map asPromptMessage out) = Ok out.
Proof.
  unfold convertToLettaMessage. intros H. apply mapM_Forall2 in H.
  apply mapM_retraction. intros c Hc.
  assert (Hsym : Forall2 (fun c m => convertPromptMessage m = Ok c) out prompt).
  { clear Hc. induction H; constructor; assumption. }
  destruct (Forall2_In_left _ _ _ _ Hsym Hc) as (m & _ & Hm).
  now apply (convertPromptMessage_again m).
Qed.

Lemma flattener_idempotent_witness :
  convertToLettaMessage acceptedPrompt = Ok acceptedPromptResult
  /\ convertToLettaMessage (map asPromptMessage acceptedPromptResult)
     = Ok acceptedPromptResult.
Proof.
  split; [reflexivity |].
  exact (flattener_idempotent acceptedPrompt acceptedPromptResult eq_refl).
Defined.

(* ===================================================================== *)
(** ** createLetta *)
(* ===================================================================== *)

(** X16.  The base URL handed to the client is never missing and never the empty
    string: a non-empty [baseUrl] option (or one supplied later) is used as
    it is; failing that, a non-empty [LETTA_BASE_URL]; failing both, also
    when either is the empty string, the cloud address. *)
Theorem createLetta_baseUrl_resolution {D : Type} (options : ClientOptions D)
        (env : Environment) :
  let resolved := co_baseUrl (client (createLetta options env)) in
  suppliedTruthy resolved = true
  /\ (suppliedTruthy (co_baseUrl options) = true -> resolved = co_baseUrl options)
  /\ (suppliedTruthy (co_baseUrl options) = false ->
      forall url, LETTA_BASE_URL env = Some url -> url <> "" ->
                  resolved = SuppliedString url)
  /\ (suppliedTruthy (co_baseUrl options) = false ->
      LETTA_BASE_URL env = None \/ LETTA_BASE_URL env = Some "" ->
      resolved = SuppliedString "https://api.letta.com").
Proof.
  cbn [createLetta client clientOptions co_baseUrl]. unfold suppliedOr.
  destruct (suppliedTruthy (co_baseUrl options)) eqn:Eo; rewrite ?Eo.
  - repeat split; try discriminate.
  - split; [| split; [discriminate | split]].
    + destruct (suppliedTruthy (envValue (LETTA_BASE_URL env))) eqn:Ee;
        [exact Ee | reflexivity].
    + intros _ url -> Hurl. simpl.
      apply String.eqb_neq in Hurl. now rewrite Hurl.
    + intros _ [-> | ->]; reflexivity.
Qed.

Lemma createLetta_baseUrl_resolution_witness :
  let options : ClientOptions unit :=
    {| co_token := NotSupplied; co_baseUrl := SuppliedString "";
       co_others := [] |} in
  let env := {| LETTA_API_KEY := Some "key";
                LETTA_BASE_URL := Some "http://letta.internal" |} in
  (suppliedTruthy (co_baseUrl options) = false
   /\ LETTA_BASE_URL env = Some "http://letta.internal")
  /\ co_baseUrl (client (createLetta options env))
     = SuppliedString "http://letta.internal".
Proof.
  intros options env. split; [split; reflexivity |].
  refine (proj1 (proj2 (proj2 (createLetta_baseUrl_resolution options env)))
                eq_refl "http://letta.internal" eq_refl _).
  discriminate.
Defined.
